(** * Types, attributes and propagated values of the graph builder

    A shallow embedding of
    - [steelix/_type_system.py]: the [Type] lattice with its membership test
      [__le__] and its join [__or__];
    - [spox/_attributes.py]: attribute wrappers, [_Ref] indirection, kind
      deduction and serialization;
    - [spox/_value_prop.py]: [PropValue], its validation and the conversions
      to and from the two evaluation backends. *)

From Stdlib Require Import List ZArith NArith QArith Bool String Ascii Lia.
From Stdlib Require Import Floats.SpecFloat.
Import ListNotations.

Set Implicit Arguments.
Local Open Scope string_scope.

(** ** Python exceptions and fallible results *)

Inductive exn : Set :=
  | TypeError
  | ValueError
  | AttributeError
  | OverflowError
  | NotImplementedError.

Inductive result (A : Type) : Type :=
  | Ok (a : A)
  | Raise (e : exn).

Arguments Ok {A} a.
Arguments Raise {A} e.

Definition bind {A B : Type} (r : result A) (k : A -> result B) : result B :=
  match r with
  | Ok a => k a
  | Raise e => Raise e
  end.

Notation "x <- r ;; k" := (bind r (fun x => k))
  (at level 61, r at next level, right associativity).

(** [[f(x) for x in xs]] for a fallible [f]: the first exception escapes. *)
Fixpoint mapM {A B : Type} (f : A -> result B) (xs : list A) : result (list B) :=
  match xs with
  | [] => Ok []
  | x :: xs' => y <- f x ;; ys <- mapM f xs' ;; Ok (y :: ys)
  end.

(** ** Integer fields of the interchange format *)

(** A protobuf [int64] or [int32] field takes a Python integer of its range
    and raises [ValueError] on any other. *)
Definition int64_in_range (z : Z) : bool :=
  ((- 2 ^ 63 <=? z) && (z <? 2 ^ 63))%Z.

Definition int32_in_range (z : Z) : bool :=
  ((- 2 ^ 31 <=? z) && (z <? 2 ^ 31))%Z.

Definition int64_field (z : Z) : result Z :=
  if int64_in_range z then Ok z else Raise ValueError.

Definition int32_field (z : Z) : result Z :=
  if int32_in_range z then Ok z else Raise ValueError.

(** ** Shape algebra ([_shape.py]) *)

Module Shape.

(** Modelled from the spec: [_shape.py] is not among the sources.  A
    dimension is a concrete non-negative integer, a symbolic name or
    unknown (section 3). *)
Inductive Dim : Set :=
  | Constant (n : N)
  | Symbolic (name : string)
  | Unknown.

(** Modelled from the spec: a shape is "unknown rank" ([None]) or an ordered
    sequence of dimensions; rank zero ([Some []]) is a scalar. *)
Definition t : Set := option (list Dim).

(** The simple representation is the tuple of ints, strings and [None]s
    (or [None] for the whole shape) that [Tensor.__init__] receives. *)
Definition SimpleShape : Set := option (list Dim).
Definition from_simple (s : SimpleShape) : t := s.
Definition to_simple (s : t) : SimpleShape := s.

Definition dim_eqb (x y : Dim) : bool :=
  match x, y with
  | Constant n, Constant m => N.eqb n m
  | Symbolic a, Symbolic b => String.eqb a b
  | Unknown, Unknown => true
  | _, _ => false
  end.

Fixpoint dims_eqb (xs ys : list Dim) : bool :=
  match xs, ys with
  | [], [] => true
  | x :: xs', y :: ys' => dim_eqb x y && dims_eqb xs' ys'
  | _, _ => false
  end.

Definition eqb (a b : t) : bool :=
  match a, b with
  | None, None => true
  | Some xs, Some ys => dims_eqb xs ys
  | _, _ => false
  end.

(** Modelled from the spec: section 4.1, "unknown dimension on the right
    matches any left dimension; symbolic names compare by literal string
    equality only; concrete dimensions compare by equality". *)
Definition dim_le (x y : Dim) : bool :=
  match y with
  | Unknown => true
  | _ => dim_eqb x y
  end.

Fixpoint dims_le (xs ys : list Dim) : bool :=
  match xs, ys with
  | [], [] => true
  | x :: xs', y :: ys' => dim_le x y && dims_le xs' ys'
  | _, _ => false
  end.

(** Modelled from the spec: section 4.1, "unknown-rank is comparable to
    anything"; "different known ranks are incomparable (false) unless one
    side is unknown-rank". *)
Definition le (a b : t) : bool :=
  match a, b with
  | None, _ => true
  | _, None => true
  | Some xs, Some ys => dims_le xs ys
  end.

(** Modelled from the spec: section 4.1, "equal dimensions are kept, any
    disagreement collapses that axis to unknown". *)
Definition dim_join (x y : Dim) : Dim :=
  if dim_eqb x y then x else Unknown.

Fixpoint dims_join (xs ys : list Dim) : list Dim :=
  match xs, ys with
  | x :: xs', y :: ys' => dim_join x y :: dims_join xs' ys'
  | _, _ => []
  end.

(** Modelled from the spec: section 4.1, "unknown-rank on either side, or
    differing ranks, yields unknown-rank". *)
Definition join (a b : t) : t :=
  match a, b with
  | Some xs, Some ys =>
      if Nat.eqb (List.length xs) (List.length ys) then Some (dims_join xs ys) else None
  | _, _ => None
  end.

End Shape.

(** ** The type lattice ([steelix/_type_system.py]) *)

(** Modelled from the spec: the table [_DTYPE_TO_TENSOR_TYPE] of [_utils.py] is
    not among the sources.  [Tensor.VALID_TYPES] is the set of numpy scalar
    classes of its keys: the element kinds with an encoding in the
    interchange format.  They are concrete leaf classes, none derived from
    another. *)
Inductive ElemType : Set :=
  | float16 | float32 | float64
  | int8 | int16 | int32 | int64
  | uint8 | uint16 | uint32 | uint64
  | bool_ | str_
  | complex64 | complex128.

Definition ElemType_eqb (a b : ElemType) : bool :=
  match a, b with
  | float16, float16 | float32, float32 | float64, float64
  | int8, int8 | int16, int16 | int32, int32 | int64, int64
  | uint8, uint8 | uint16, uint16 | uint32, uint32 | uint64, uint64
  | bool_, bool_ | str_, str_
  | complex64, complex64 | complex128, complex128 => true
  | _, _ => false
  end.

(** [issubclass(a, b)] on members of [VALID_TYPES]. *)
Definition issubclass (a b : ElemType) : bool := ElemType_eqb a b.

(** [Type()] is the bare base class: the unknown type.  The subclasses are the
    dataclasses [Tensor], [Sequence] and [Optional]. *)
Inductive Type_ : Set :=
  | TypeUnknown
  | Tensor (elem_type : ElemType) (_shape : Shape.t)
  | Sequence (elem_type : Type_)
  | Optional (elem_type : Type_).

(** The class of an instance, as [isinstance] sees it. *)
Inductive Variant : Set := VType | VTensor | VSequence | VOptional.

Definition variant (t : Type_) : Variant :=
  match t with
  | TypeUnknown => VType
  | Tensor _ _ => VTensor
  | Sequence _ => VSequence
  | Optional _ => VOptional
  end.

(** Dataclass equality: same class and equal fields. *)
Fixpoint Type_eqb (s t : Type_) : bool :=
  match s, t with
  | TypeUnknown, TypeUnknown => true
  | Tensor k1 sh1, Tensor k2 sh2 => ElemType_eqb k1 k2 && Shape.eqb sh1 sh2
  | Sequence a, Sequence b => Type_eqb a b
  | Optional a, Optional b => Type_eqb a b
  | _, _ => false
  end.

(** [Tensor.__init__] with an element kind of [VALID_TYPES]. *)
Definition Tensor_init (elem_type : ElemType) (shape : Shape.SimpleShape) : Type_ :=
  Tensor elem_type (Shape.from_simple shape).

(** [s <= t]: [Type.__le__] and its overrides, dispatched on the class of [s]. *)
Fixpoint Type_le (s t : Type_) : bool :=
  match s with
  | TypeUnknown =>
      Type_eqb s TypeUnknown || Type_eqb t TypeUnknown || Type_eqb s t
  | Tensor k1 sh1 =>
      if Type_eqb t TypeUnknown || Type_eqb s t then true
      else match t with
           | Tensor k2 sh2 => issubclass k1 k2 && Shape.le sh1 sh2
           | _ => false
           end
  | Sequence a =>
      if Type_eqb t TypeUnknown || Type_eqb s t then true
      else match t with
           | Sequence b => Type_le a b
           | _ => false
           end
  | Optional a =>
      if Type_eqb t TypeUnknown || Type_eqb s t then true
      else match t with
           | Optional b => Type_le a b
           | _ => false
           end
  end.

(** [s | t]: [Type.__or__] and its overrides, dispatched on the class of [s]. *)
Fixpoint Type_or (s t : Type_) : Type_ :=
  match s with
  | TypeUnknown => if Type_eqb s t then s else TypeUnknown
  | Tensor k1 sh1 =>
      match t with
      | Tensor k2 sh2 =>
          if negb (ElemType_eqb k1 k2) then TypeUnknown
          else Tensor_init k1 (Shape.to_simple (Shape.join sh1 sh2))
      | _ => TypeUnknown
      end
  | Sequence a =>
      match t with
      | Sequence b => Sequence (Type_or a b)
      | _ => TypeUnknown
      end
  | Optional a =>
      match t with
      | Optional b => Optional (Type_or a b)
      | _ => TypeUnknown
      end
  end.

(** Modelled from the spec: [spox/_type_system.py], whose [Type._subtype]
    [PropValue.check] calls, is not among the sources.  Section 4.2: the
    unknown type is absorbing on the right, structural equality is always
    below, and otherwise the test recurses by variant: a Tensor needs the
    identical element kind and a shape below the other shape, a Sequence or
    an Optional needs its element below the other element; mismatched
    variants are incomparable unless the right side is the unknown type.
    Unlike [Type_le], the unknown type on the left is below nothing but
    itself and the unknown type. *)
Fixpoint _subtype (s t : Type_) : bool :=
  Type_eqb t TypeUnknown || Type_eqb s t ||
  match s, t with
  | Tensor k1 sh1, Tensor k2 sh2 => issubclass k1 k2 && Shape.le sh1 sh2
  | Sequence a, Sequence b => _subtype a b
  | Optional a, Optional b => _subtype a b
  | _, _ => false
  end.

(** ** Attributes ([spox/_attributes.py]) *)

Module Attributes.

(** [AttributeProto.AttributeType] of the interchange format. *)
Inductive AttributeType : Set :=
  | UNDEFINED | FLOAT | INT | STRING | TENSOR | GRAPH
  | FLOATS | INTS | STRINGS | TENSORS | GRAPHS
  | SPARSE_TENSOR | SPARSE_TENSORS | TYPE_PROTO | TYPE_PROTOS.

Definition AttributeType_eqb (a b : AttributeType) : bool :=
  match a, b with
  | UNDEFINED, UNDEFINED | FLOAT, FLOAT | INT, INT | STRING, STRING
  | TENSOR, TENSOR | GRAPH, GRAPH | FLOATS, FLOATS | INTS, INTS
  | STRINGS, STRINGS | TENSORS, TENSORS | GRAPHS, GRAPHS
  | SPARSE_TENSOR, SPARSE_TENSOR | SPARSE_TENSORS, SPARSE_TENSORS
  | TYPE_PROTO, TYPE_PROTO | TYPE_PROTOS, TYPE_PROTOS => true
  | _, _ => false
  end.

(** The protobuf message classes that [_deduce_type] tests for. *)
Inductive ProtoClass : Set :=
  | TensorProto | SparseTensorProto | GraphProto | TypeProto.

(** *** Floating-point numbers *)

(** A Python [float] is an IEEE 754 binary64 number and a [float] field of
    the interchange format holds a binary32 number; both are written as a
    [spec_float]: a signed zero, an infinity, a NaN, or a sign with a
    mantissa and a binary exponent. *)

(** [float(z)] of an integer: the nearest binary64 number, ties to even,
    and [OverflowError] when that lies beyond the largest finite one. *)
Definition float_of_int (z : Z) : result spec_float :=
  match binary_normalize 53 1024 z 0 false with
  | S754_infinity _ => Raise OverflowError
  | x => Ok x
  end.

(** What a [float] field keeps of a binary64 number: the nearest binary32
    number, ties to even, an infinity beyond the binary32 range. *)
Definition float_field (x : spec_float) : spec_float :=
  match x with
  | S754_finite sign m e => binary_normalize 24 128 (cond_Zopp sign (Zpos m)) e sign
  | _ => x
  end.

(** *** Python values *)

(** The Python values an attribute is built from, of the builtin types
    [int], [bool], [float], [str], [bytes] and [tuple] (which stands for
    every list or tuple), a protobuf message of one of the four classes, and
    a [spox._graph.Graph].  A [float] is its binary64 number.  A [str] is
    held as the bytes of its UTF-8 encoding, so only text that has one is
    represented.  [PyObject] is an object with none of the protocols tested
    here: no number, no text, no message, not iterable.  Numbers of other
    classes (numpy scalars, [Fraction], [Decimal]) and numpy arrays have no
    counterpart: what is proved of every [PyVal] is proved of the values
    listed here. *)
#[warnings="-register-all"]
Inductive PyVal : Set :=
  | PyInt (z : Z)
  | PyBool (b : bool)
  | PyFloat (x : spec_float)
  | PyStr (s : string)
  | PyBytes (s : string)
  | PyProto (c : ProtoClass)
  | PyGraph
  | PyObject
  | PyTuple (items : list PyVal).

(** [type(v)]. *)
Inductive PyType : Set :=
  | t_int | t_bool | t_float | t_str | t_bytes
  | t_proto (c : ProtoClass) | t_Graph | t_object | t_tuple.

Definition type_of (v : PyVal) : PyType :=
  match v with
  | PyInt _ => t_int
  | PyBool _ => t_bool
  | PyFloat _ => t_float
  | PyStr _ => t_str
  | PyBytes _ => t_bytes
  | PyProto c => t_proto c
  | PyGraph => t_Graph
  | PyObject => t_object
  | PyTuple _ => t_tuple
  end.

(** The classes (or tuples of classes) [_deduce_type] tests against. *)
Inductive ExpT : Set :=
  | Integral | Real | StrOrBytes | Proto (c : ProtoClass).

Definition ProtoClass_eqb (a b : ProtoClass) : bool :=
  match a, b with
  | TensorProto, TensorProto | SparseTensorProto, SparseTensorProto
  | GraphProto, GraphProto | TypeProto, TypeProto => true
  | _, _ => false
  end.

(** [issubclass(t, exp_t)]: [bool] derives from [int], and [int] is
    registered as [numbers.Integral], which derives from [numbers.Real];
    [float] is registered as [numbers.Real]. *)
Definition issubclass (t : PyType) (exp_t : ExpT) : bool :=
  match exp_t, t with
  | Integral, (t_int | t_bool) => true
  | Real, (t_int | t_bool | t_float) => true
  | StrOrBytes, (t_str | t_bytes) => true
  | Proto c, t_proto c' => ProtoClass_eqb c' c
  | _, _ => false
  end.

Definition isinstance (v : PyVal) (exp_t : ExpT) : bool :=
  issubclass (type_of v) exp_t.

(** The candidates of the iterable case, in the order they are tried. *)
Definition iterable_candidates : list (ExpT * AttributeType) :=
  [ (Integral, INTS);
    (Real, FLOATS);
    (StrOrBytes, STRINGS);
    (Proto TensorProto, TENSORS);
    (Proto SparseTensorProto, SPARSE_TENSORS);
    (Proto GraphProto, GRAPHS);
    (Proto TypeProto, TYPE_PROTOS) ].

(** The [for exp_t, exp_enum in (...)] loop: the first candidate that every
    element type derives from. *)
Fixpoint first_candidate (types : list PyType)
    (cands : list (ExpT * AttributeType)) : option AttributeType :=
  match cands with
  | [] => None
  | (exp_t, exp_enum) :: rest =>
      if forallb (fun t => issubclass t exp_t) types then Some exp_enum
      else first_candidate types rest
  end.

Definition _deduce_type (value : PyVal) : result AttributeType :=
  if isinstance value Integral then Ok INT
  else if isinstance value Real then Ok FLOAT
  else if isinstance value StrOrBytes then Ok STRING
  else if isinstance value (Proto TensorProto) then Ok TENSOR
  else if isinstance value (Proto SparseTensorProto) then Ok SPARSE_TENSOR
  else if isinstance value (Proto GraphProto) then Ok GRAPH
  else if isinstance value (Proto TypeProto) then Ok TYPE_PROTO
  else match value with
       | PyTuple items =>
           if Nat.eqb (List.length items) 0 then Raise ValueError
           else match first_candidate (map type_of items) iterable_candidates with
                | Some exp_enum => Ok exp_enum
                | None => Raise ValueError
                end
       | _ => Raise TypeError
       end.

(** *** The attribute record and [onnx.helper.make_attribute] *)

(** The attribute record of the interchange format.  A field that was not
    set holds its protobuf default.  [f] and [floats] are binary32, [i] and
    [ints] 64-bit integers; a message is kept as its class. *)
Record AttributeProto : Set := mkAttributeProto {
  name : string;
  ref_attr_name : string;
  type : AttributeType;
  f : spec_float;
  i : Z;
  s : string;
  floats : list spec_float;
  ints : list Z;
  strings : list string;
  messages : list ProtoClass
}.

(** [AttributeProto(name=..., ref_attr_name=..., type=...)]. *)
Definition AttributeProto_init (name ref_attr_name : string)
    (type : AttributeType) : AttributeProto :=
  mkAttributeProto name ref_attr_name type (S754_zero false) 0%Z EmptyString
    [] [] [] [].

Definition set_f (p : AttributeProto) (x : spec_float) : AttributeProto :=
  mkAttributeProto (name p) (ref_attr_name p) FLOAT x (i p) (s p)
    (floats p) (ints p) (strings p) (messages p).
Definition set_i (p : AttributeProto) (x : Z) : AttributeProto :=
  mkAttributeProto (name p) (ref_attr_name p) INT (f p) x (s p)
    (floats p) (ints p) (strings p) (messages p).
Definition set_s (p : AttributeProto) (x : string) : AttributeProto :=
  mkAttributeProto (name p) (ref_attr_name p) STRING (f p) (i p) x
    (floats p) (ints p) (strings p) (messages p).
Definition set_floats (p : AttributeProto) (x : list spec_float)
    : AttributeProto :=
  mkAttributeProto (name p) (ref_attr_name p) FLOATS (f p) (i p) (s p)
    x (ints p) (strings p) (messages p).
Definition set_ints (p : AttributeProto) (x : list Z) : AttributeProto :=
  mkAttributeProto (name p) (ref_attr_name p) INTS (f p) (i p) (s p)
    (floats p) x (strings p) (messages p).
Definition set_strings (p : AttributeProto) (x : list string) : AttributeProto :=
  mkAttributeProto (name p) (ref_attr_name p) STRINGS (f p) (i p) (s p)
    (floats p) (ints p) x (messages p).
Definition set_messages (p : AttributeProto) (ty : AttributeType)
    (x : list ProtoClass) : AttributeProto :=
  mkAttributeProto (name p) (ref_attr_name p) ty (f p) (i p) (s p)
    (floats p) (ints p) (strings p) x.

(** [attr.i = int(value)]: the integer of an [int] or a [bool], which the
    [int64] field takes when it is in range. *)
Definition as_int (v : PyVal) : result Z :=
  match v with
  | PyInt z => int64_field z
  | PyBool b => Ok (if b then 1 else 0)%Z
  | _ => Raise TypeError
  end.

(** An element of [attr.ints.extend(value)]: the elements are not
    converted, and the repeated [int64] field takes an [int] in range and
    refuses a [bool] as it refuses any other object. *)
Definition as_int_item (v : PyVal) : result Z :=
  match v with
  | PyInt z => int64_field z
  | _ => Raise TypeError
  end.

(** [attr.f = float(value)] and an element of [attr.floats.extend(value)]:
    the field keeps the binary32 number of a [float], and of the [float] of
    an [int]. *)
Definition as_float (v : PyVal) : result spec_float :=
  match v with
  | PyFloat x => Ok (float_field x)
  | PyInt z => x <- float_of_int z ;; Ok (float_field x)
  | _ => Raise TypeError
  end.

(** [_to_bytes(value)]: the UTF-8 bytes of a [str], or the [bytes]. *)
Definition as_bytes (v : PyVal) : result string :=
  match v with
  | PyStr x => Ok x
  | PyBytes x => Ok x
  | _ => Raise TypeError
  end.

(** A message field takes a message of its own class. *)
Definition as_message (c : ProtoClass) (v : PyVal) : result ProtoClass :=
  match v with
  | PyProto c' => if ProtoClass_eqb c' c then Ok c' else Raise TypeError
  | _ => Raise TypeError
  end.

(** [onnx.helper.make_attribute(key, value, attr_type)], the external
    helper the wrappers serialize through: it infers the kind the way
    [_deduce_type] (a copy of it) does, takes [attr_type] for an iterable
    when it is given, fills the field of that kind, and rejects a kind that
    differs from a given [attr_type]. *)
Definition make_attribute (key : string) (value : PyVal)
    (attr_type : option AttributeType) : result AttributeProto :=
  let attr := AttributeProto_init key EmptyString UNDEFINED in
  filled <-
    match value with
    | PyTuple items =>
        ty <- match attr_type with
              | Some ty => Ok ty
              | None => _deduce_type value
              end ;;
        match ty with
        | INTS => xs <- mapM as_int_item items ;; Ok (set_ints attr xs)
        | FLOATS => xs <- mapM as_float items ;; Ok (set_floats attr xs)
        | STRINGS => xs <- mapM as_bytes items ;; Ok (set_strings attr xs)
        | TENSORS =>
            xs <- mapM (as_message TensorProto) items ;;
            Ok (set_messages attr ty xs)
        | SPARSE_TENSORS =>
            xs <- mapM (as_message SparseTensorProto) items ;;
            Ok (set_messages attr ty xs)
        | GRAPHS =>
            xs <- mapM (as_message GraphProto) items ;;
            Ok (set_messages attr ty xs)
        | TYPE_PROTOS =>
            xs <- mapM (as_message TypeProto) items ;;
            Ok (set_messages attr ty xs)
        | _ => Raise TypeError
        end
    | _ =>
        ty <- _deduce_type value ;;
        match ty with
        | INT => x <- as_int value ;; Ok (set_i attr x)
        | FLOAT => x <- as_float value ;; Ok (set_f attr x)
        | STRING => x <- as_bytes value ;; Ok (set_s attr x)
        | TENSOR =>
            x <- as_message TensorProto value ;; Ok (set_messages attr ty [x])
        | SPARSE_TENSOR =>
            x <- as_message SparseTensorProto value ;;
            Ok (set_messages attr ty [x])
        | GRAPH =>
            x <- as_message GraphProto value ;; Ok (set_messages attr ty [x])
        | TYPE_PROTO =>
            x <- as_message TypeProto value ;; Ok (set_messages attr ty [x])
        | _ => Raise TypeError
        end
    end ;;
  match attr_type with
  | Some ty =>
      if AttributeType_eqb (type filled) ty then Ok filled else Raise TypeError
  | None => Ok filled
  end.

(** *** The wrapper classes *)

(** The wrapper classes of this development.  [AttrTensor], [AttrType] and
    [AttrDtype] wrap a numpy array, a [Type] and a numpy dtype, which are no
    values of [PyVal]; they are left out, and what is proved of every
    [AttrClass] is proved of the eight classes listed here. *)
Inductive AttrClass : Set :=
  | AttrFloat32 | AttrInt64 | AttrString | AttrGraph
  | AttrFloat32s | AttrInt64s | AttrStrings | AttrTensors.

Definition _attribute_proto_type_int (cls : AttrClass) : AttributeType :=
  match cls with
  | AttrFloat32 => FLOAT
  | AttrInt64 => INT
  | AttrString => STRING
  | AttrGraph => GRAPH
  | AttrFloat32s => FLOATS
  | AttrInt64s => INTS
  | AttrStrings => STRINGS
  | AttrTensors => TENSORS
  end.

(** The subclasses of [_AttrIterable]. *)
Definition is_iterable_class (cls : AttrClass) : bool :=
  match cls with
  | AttrFloat32s | AttrInt64s | AttrStrings | AttrTensors => true
  | _ => false
  end.

(** An [Attr] of class [cls] whose [_value] is a literal or a [_Ref]; a
    [_Ref] holds the attribute it stands for and the name that attribute
    has in the outer scope. *)
Inductive Attr : Set :=
  | AttrLit (cls : AttrClass) (_value : PyVal)
  | AttrRef (cls : AttrClass) (_value : _Ref)
with _Ref : Set :=
  | mk_Ref (_concrete : Attr) (_outer_name : string).

Definition class_of (a : Attr) : AttrClass :=
  match a with
  | AttrLit cls _ => cls
  | AttrRef cls _ => cls
  end.

Fixpoint _deref (ref : _Ref) : PyVal :=
  match ref with
  | mk_Ref (AttrRef _ r) _ => _deref r
  | mk_Ref (AttrLit _ v) _ => v
  end.

(** The [value] property. *)
Definition value (a : Attr) : PyVal :=
  match a with
  | AttrRef _ r => _deref r
  | AttrLit _ v => v
  end.

(** [str.encode()]: the UTF-8 bytes of the text; [bytes] has no such
    method. *)
Definition encode (v : PyVal) : result PyVal :=
  match v with
  | PyStr x => Ok (PyBytes x)
  | _ => Raise AttributeError
  end.

(** [isinstance(v, int)]; [bool] derives from [int]. *)
Definition is_int (v : PyVal) : bool :=
  match type_of v with
  | t_int | t_bool => true
  | _ => false
  end.

(** The continuation bytes of UTF-8: [0x80] to [0xBF]. *)
Definition is_continuation (c : ascii) : bool :=
  ((128 <=? N_of_ascii c) && (N_of_ascii c <? 192))%N.

(** One byte more in front of the characters split so far: a continuation
    byte waits for the byte that starts its character. *)
Definition utf8_step (c : ascii) (acc : list ascii * list (list ascii))
    : list ascii * list (list ascii) :=
  let (pending, chars) := acc in
  if is_continuation c then (c :: pending, chars)
  else ([], (c :: pending) :: chars).

(** The characters of a [str]: in its UTF-8 bytes, a character is a byte
    that is no continuation byte together with the continuation bytes that
    follow it. *)
Definition utf8_chars (x : string) : list string :=
  let (pending, chars) :=
    fold_right utf8_step ([], []) (list_ascii_of_string x) in
  map string_of_list_ascii
    (match pending with
     | [] => chars
     | _ => pending :: chars
     end).

Definition single_chars (x : string) : list PyVal :=
  map PyStr (utf8_chars x).

(** Iteration, as in [tuple(v)] and [for x in v]: a string yields its
    characters, bytes yield their codes, anything else that is modelled
    here and is not a tuple is not iterable. *)
Definition iter (v : PyVal) : result (list PyVal) :=
  match v with
  | PyTuple items => Ok items
  | PyStr x => Ok (single_chars x)
  | PyBytes x =>
      Ok (map (fun c => PyInt (Z.of_nat (nat_of_ascii c))) (list_ascii_of_string x))
  | _ => Raise TypeError
  end.

Section Serialization.

(** [from_array] of [_utils.py], which is not among the sources, and the
    parser of numerals behind [float(text)], which is not modelled. *)
Variable from_array : PyVal -> result PyVal.
Variable float_of_text : string -> result spec_float.

(** [float(v)]. *)
Definition float (v : PyVal) : result spec_float :=
  match v with
  | PyInt z => float_of_int z
  | PyBool b => float_of_int (if b then 1 else 0)
  | PyFloat x => Ok x
  | PyStr x | PyBytes x => float_of_text x
  | _ => Raise TypeError
  end.

(** [_to_onnx_deref] of each class, on the dereferenced [value]. *)
Definition _to_onnx_deref (cls : AttrClass) (value : PyVal) (key : string)
    : result AttributeProto :=
  match cls with
  | AttrFloat32 =>
      if is_int value
      then x <- float value ;; make_attribute key (PyFloat x) None
      else make_attribute key value None
  | AttrInt64 => make_attribute key value None
  | AttrString => b <- encode value ;; make_attribute key b None
  | AttrGraph => Raise TypeError
  | AttrFloat32s =>
      items <- iter value ;;
      values <- mapM float items ;;
      make_attribute key (PyTuple (map PyFloat values)) (Some FLOATS)
  | AttrInt64s => make_attribute key value (Some INTS)
  | AttrStrings =>
      items <- iter value ;;
      values <- mapM encode items ;;
      make_attribute key (PyTuple values) (Some STRINGS)
  | AttrTensors =>
      items <- iter value ;;
      tensors <- mapM from_array items ;;
      make_attribute key (PyTuple tensors) (Some TENSORS)
  end.

(** [Attr._to_onnx] and [_Ref._to_onnx]: a referencing attribute serializes
    its target and keeps the kind of the record only. *)
Fixpoint _to_onnx (a : Attr) (key : string) : result AttributeProto :=
  match a with
  | AttrRef _ r => Ref_to_onnx r key
  | AttrLit cls v => _to_onnx_deref cls v key
  end
with Ref_to_onnx (r : _Ref) (key : string) : result AttributeProto :=
  match r with
  | mk_Ref _concrete _outer_name =>
      parent <- _to_onnx _concrete key ;;
      Ok (AttributeProto_init key _outer_name (type parent))
  end.

End Serialization.

(** [Attr._validate] and its override in [AttrGraph]. *)
Definition _validate (a : Attr) : result unit :=
  match class_of a with
  | AttrGraph =>
      match value a with
      | PyGraph => Ok tt
      | _ => Raise TypeError
      end
  | cls =>
      ty <- _deduce_type (value a) ;;
      if negb (AttributeType_eqb ty (_attribute_proto_type_int cls))
      then Raise TypeError
      else Ok tt
  end.

(** What a constructor receives: a literal or a [_Ref]. *)
Inductive Arg : Set :=
  | Literal (v : PyVal)
  | Reference (r : _Ref).

(** [Attr.__init__]. *)
Definition Attr_init (cls : AttrClass) (value : Arg) : result Attr :=
  let self := match value with
              | Literal v => AttrLit cls v
              | Reference r => AttrRef cls r
              end in
  _ <- _validate self ;;
  Ok self.

(** [_AttrIterable.__init__]. *)
Definition AttrIterable_init (cls : AttrClass) (value : Arg) : result Attr :=
  match value with
  | Reference r => Attr_init cls (Reference r)
  | Literal v => items <- iter v ;; Attr_init cls (Literal (PyTuple items))
  end.

(** [cls(value)]: the constructor call on a wrapper class. *)
Definition new (cls : AttrClass) (value : Arg) : result Attr :=
  if is_iterable_class cls then AttrIterable_init cls value
  else Attr_init cls value.

(** The number of references between an attribute and its literal. *)
Fixpoint depth (a : Attr) : nat :=
  match a with
  | AttrLit _ _ => 0
  | AttrRef _ (mk_Ref c _) => S (depth c)
  end.

(** The attribute at the end of the reference chain. *)
Fixpoint target (a : Attr) : Attr :=
  match a with
  | AttrLit _ _ => a
  | AttrRef _ (mk_Ref c _) => target c
  end.


(** [Attr.maybe]: the [maybe] of the classes that are not iterable. *)
Definition Attr_maybe (cls : AttrClass) (value : option Arg)
    : result (option Attr) :=
  match value with
  | Some v => a <- Attr_init cls v ;; Ok (Some a)
  | None => Ok None
  end.

(** [_AttrIterable.maybe]: [cls(tuple(value))]; a [_Ref] is not iterable. *)
Definition AttrIterable_maybe (cls : AttrClass) (value : option Arg)
    : result (option Attr) :=
  match value with
  | Some (Literal v) =>
      items <- iter v ;;
      a <- AttrIterable_init cls (Literal (PyTuple items)) ;;
      Ok (Some a)
  | Some (Reference _) => Raise TypeError
  | None => Ok None
  end.

(** [cls.maybe(value)]. *)
Definition maybe (cls : AttrClass) (value : option Arg) : result (option Attr) :=
  if is_iterable_class cls then AttrIterable_maybe cls value
  else Attr_maybe cls value.

(** Every attribute of the chain passed the [_validate] of its
    constructor. *)
Fixpoint well_constructed (a : Attr) : bool :=
  match _validate a with
  | Ok _ =>
      match a with
      | AttrLit _ _ => true
      | AttrRef _ (mk_Ref c _) => well_constructed c
      end
  | Raise _ => false
  end.

(** The binary64 numbers that are no infinity: the integers [float] takes. *)
Definition is_infinity (x : spec_float) : bool :=
  match x with
  | S754_infinity _ => true
  | _ => false
  end.

(** The numeric payloads that the fields of the record take: an [int] of
    the 64-bit range for the integer classes, with no [bool] in a list; a
    [float] for the float classes, and in a list also a [bool] or an [int]
    that [float] can convert. *)
Definition fits_item (cls : AttrClass) (v : PyVal) : bool :=
  match cls, v with
  | AttrInt64s, PyInt z => int64_in_range z
  | AttrFloat32s, PyInt z => negb (is_infinity (binary_normalize 53 1024 z 0 false))
  | AttrFloat32s, (PyBool _ | PyFloat _) => true
  | _, _ => false
  end.

Definition fits (cls : AttrClass) (v : PyVal) : bool :=
  match cls, v with
  | AttrInt64, PyInt z => int64_in_range z
  | AttrFloat32, PyFloat _ => true
  | (AttrInt64s | AttrFloat32s), PyTuple items => forallb (fits_item cls) items
  | _, _ => false
  end.

End Attributes.


(** ** Propagated values ([spox/_value_prop.py]) *)

Module ValueProp.

(** *** numpy arrays *)

(** Platform-dependent scalar classes that are aliases of a sized one: they
    carry the same dtype name but are not the same class. *)
Inductive Alias : Set := longlong | ulonglong.

(** The dtype of an array, identified by its scalar class ([dtype.type]):
    a class of [Tensor.VALID_TYPES], [object], or a platform alias. *)
Inductive DType : Set :=
  | dt (k : ElemType)
  | dt_object
  | dt_alias (a : Alias).

(** [dtype.name], as the sized class it names. *)
Definition dtype_name (d : DType) : option ElemType :=
  match d with
  | dt k => Some k
  | dt_object => None
  | dt_alias longlong => Some int64
  | dt_alias ulonglong => Some uint64
  end.

Definition is_number_kind (k : ElemType) : bool :=
  match k with
  | bool_ | str_ => false
  | _ => true
  end.

(** [np.issubdtype(d, np.number)]. *)
Definition is_number (d : DType) : bool :=
  match d with
  | dt k => is_number_kind k
  | dt_object => false
  | dt_alias _ => true
  end.

(** [d.type is np.dtype(k).type] for an element kind [k] of a Tensor. *)
Definition dtype_type_is (d : DType) (k : ElemType) : bool :=
  match d with
  | dt k' => ElemType_eqb k' k
  | _ => false
  end.

(** An element of an array buffer. *)
Inductive Scalar : Set :=
  | Num (q : Q)
  | Text (s : string).

Record ndarray : Set := mk_ndarray {
  dtype : DType;
  shape : list N;
  data : list Scalar
}.

(** [a.astype(d)]: the same buffer under another dtype. *)
Definition astype (a : ndarray) (d : DType) : ndarray :=
  mk_ndarray d (shape a) (data a).

(** *** Raw backend values: [RefValue] and [ORTValue] *)

#[warnings="-register-all"]
Inductive Raw : Set :=
  | RNone
  | RArray (a : ndarray)
  | RList (l : list Raw)
  | RFloat (x : Q).

(** [np.array(value)] of a value that is neither [None] nor a list. *)
Definition np_array (value : Raw) : ndarray :=
  match value with
  | RArray a => a
  | RFloat x => mk_ndarray (dt float64) [] [Num x]
  | _ => mk_ndarray dt_object [] []
  end.

(** *** Warnings and the monad of the constructors *)

Inductive Warning : Set := InferenceWarning.

(** A computation that may raise and that emits warnings on the way. *)
Definition M (A : Type) : Type := (result A * list Warning)%type.

Definition ret {A : Type} (a : A) : M A := (Ok a, []).
Definition raise {A : Type} (e : exn) : M A := (Raise e, []).
Definition warn (w : Warning) : M unit := (Ok tt, [w]).

Definition bindM {A B : Type} (m : M A) (k : A -> M B) : M B :=
  match m with
  | (Ok a, ws) => let (r, ws') := k a in (r, (ws ++ ws')%list)
  | (Raise e, ws) => (Raise e, ws)
  end.

Notation "x <~ m ;; k" := (bindM m (fun x => k))
  (at level 61, m at next level, right associativity).

Fixpoint mapMM {A B : Type} (f : A -> M B) (xs : list A) : M (list B) :=
  match xs with
  | [] => ret []
  | x :: xs' => y <~ f x ;; ys <~ mapMM f xs' ;; ret (y :: ys)
  end.

(** *** PropValue *)

(** The dataclass and its payload: an array for a Tensor, a list of
    PropValues for a Sequence, a PropValue or [None] for an Optional. *)
#[warnings="-register-all"]
Inductive PropValue : Set :=
  | mkPropValue (type : Type_) (value : PropValueType)
with PropValueType : Set :=
  | VArray (a : ndarray)
  | VList (l : list PropValue)
  | VSome (p : PropValue)
  | VNone.

Definition type (self : PropValue) : Type_ :=
  match self with mkPropValue t _ => t end.

Definition value (self : PropValue) : PropValueType :=
  match self with mkPropValue _ v => v end.

(** [Shape.from_simple(a.shape)] of an array: every axis is concrete. *)
Definition array_shape (a : ndarray) : Shape.t :=
  Shape.from_simple (Some (map Shape.Constant (shape a))).

(** [PropValue.check].  The element test of a Sequence is [_subtype] of
    [spox/_type_system.py]; [dtype] is the name under which that module
    offers the dtype of [elem_type]. *)
Definition check (self : PropValue) : M bool :=
  match type self with
  | Tensor k sh =>
      match value self with
      | VArray a =>
          if negb (Shape.le (array_shape a) sh) then ret false
          else
            if (match dtype a with dt_object => true | _ => false end)
               && ElemType_eqb k str_
            then ret true
            else ret (dtype_type_is (dtype a) k)
      | _ => ret false
      end
  | Sequence elem_type =>
      match value self with
      | VList l => ret (forallb (fun elem => _subtype (type elem) elem_type) l)
      | _ => ret false
      end
  | Optional _ =>
      match value self with
      | VNone | VSome _ => ret true
      | _ => ret false
      end
  | TypeUnknown =>
      _ <~ warn InferenceWarning ;;
      ret true
  end.

(** The dtype normalization of [__post_init__]. *)
Definition normalize (value : PropValueType) : PropValueType :=
  match value with
  | VArray a =>
      if is_number (dtype a)
      then match dtype_name (dtype a) with
           | Some k => VArray (astype a (dt k))
           | None => value
           end
      else value
  | _ => value
  end.

(** [PropValue(typ, value)]: the dataclass constructor with
    [__post_init__]; [strict] is the flag [VALUE_PROP_STRICT_CHECK]. *)
Definition cls (strict : bool) (typ : Type_) (value : PropValueType)
    : M PropValue :=
  let self := mkPropValue typ (normalize value) in
  if strict
  then ok <~ check self ;;
       if negb ok then raise ValueError else ret self
  else ret self.

(** [Type.unwrap_sequence], the sibling of [unwrap_tensor] that
    [spox/_type_system.py] offers: [self] when it is a Sequence, a
    [TypeError] otherwise. *)
Definition unwrap_sequence (t : Type_) : result Type_ :=
  match t with
  | Sequence _ => Ok t
  | _ => Raise TypeError
  end.

Definition is_Sequence (t : Type_) : bool :=
  match t with
  | Sequence _ => true
  | _ => false
  end.

(** The unwrapping step of [from_ref_value]: a one-element list given for
    a type that is not a Sequence stands for its element. *)
Definition unwrap_singleton (typ : Type_) (value : Raw) : Raw :=
  if negb (is_Sequence typ)
  then match value with
       | RList [x] => x
       | _ => value
       end
  else value.

(** [PropValue.from_ref_value].  The list branch reads the element type
    through [unwrap_sequence], which raises on a type that is not a
    Sequence. *)
Fixpoint from_ref_value (strict : bool) (typ : Type_) (value : Raw)
    {struct typ} : M PropValue :=
  let value := unwrap_singleton typ value in
  match value with
  | RNone => cls strict typ VNone
  | _ =>
      match typ with
      | Optional elem_type =>
          p <~ from_ref_value strict elem_type value ;;
          cls strict typ (VSome p)
      | _ =>
          match value with
          | RList l =>
              match typ with
              | Sequence elem_type =>
                  ps <~ mapMM (from_ref_value strict elem_type) l ;;
                  cls strict typ (VList ps)
              | _ => raise TypeError
              end
          | _ => cls strict typ (VArray (np_array value))
          end
      end
  end.

(** [PropValue.from_ort_value]. *)
Fixpoint from_ort_value (strict : bool) (typ : Type_) (value : Raw)
    {struct typ} : M PropValue :=
  match value with
  | RNone => cls strict typ VNone
  | _ =>
      match typ with
      | Optional elem_type =>
          p <~ from_ort_value strict elem_type value ;;
          cls strict typ (VSome p)
      | _ =>
          match value with
          | RList l =>
              match typ with
              | Sequence elem_type =>
                  ps <~ mapMM (from_ort_value strict elem_type) l ;;
                  cls strict typ (VList ps)
              | _ => raise TypeError
              end
          | RArray a =>
              let a := match dtype a with
                       | dt_object => astype a (dt str_)
                       | _ => a
                       end in
              cls strict typ (VArray a)
          | _ => raise TypeError
          end
      end
  end.

(** [PropValue.to_ref_value]. *)
Fixpoint to_ref_value (self : PropValue) : Raw :=
  match self with
  | mkPropValue _ v =>
      match v with
      | VNone => RNone
      | VSome p => RList [to_ref_value p]
      | VList l => RList (map to_ref_value l)
      | VArray a => RArray a
      end
  end.

(** [PropValue.to_ort_value]; the nested values are converted with
    [to_ref_value], as in the source. *)
Definition to_ort_value (self : PropValue) : Raw :=
  match value self with
  | VNone => RNone
  | VSome p => to_ref_value p
  | VList l => RList (map to_ref_value l)
  | VArray a => RArray a
  end.

(** The conversion that follows the contract of the accelerated backend at
    every level: what [to_ort_value] would be if it called itself on the
    nested values. *)
Fixpoint to_ort_value_nested (self : PropValue) : Raw :=
  match self with
  | mkPropValue _ v =>
      match v with
      | VNone => RNone
      | VSome p => to_ort_value_nested p
      | VList l => RList (map to_ort_value_nested l)
      | VArray a => RArray a
      end
  end.

(** *** Predicates on propagated values *)

(** The boolean [check] answers; [false] too if it raised. *)
Definition passes (self : PropValue) : bool :=
  match fst (check self) with
  | Ok b => b
  | Raise _ => false
  end.

Definition is_VNone (v : PropValueType) : bool :=
  match v with
  | VNone => true
  | _ => false
  end.

(** The validation as section 4.4 of the spec words it: recursive, every
    element of a Sequence validating against the element type, the value
    of an Optional absent or itself validly typed. *)
Fixpoint check_spec (typ : Type_) (payload : PropValueType) {struct payload}
    : bool :=
  match typ with
  | Tensor k sh =>
      match payload with
      | VArray a =>
          Shape.le (array_shape a) sh
          && (dtype_type_is (dtype a) k
              || ((match dtype a with dt_object => true | _ => false end)
                  && ElemType_eqb k str_))
      | _ => false
      end
  | Sequence elem_type =>
      match payload with
      | VList l =>
          forallb (fun elem =>
                     match elem with
                     | mkPropValue _ v => check_spec elem_type v
                     end) l
      | _ => false
      end
  | Optional elem_type =>
      match payload with
      | VNone => true
      | VSome (mkPropValue t v) => check_spec t v
      | _ => false
      end
  | TypeUnknown => true
  end.

(** A value is valid at every level when [check] accepts it and every
    nested value, its arrays are as [__post_init__] leaves them, every
    nested value is declared with the element type of its parent, and a
    present Optional does not hold an absent value. *)
Fixpoint valid (self : PropValue) : bool :=
  passes self &&
  match self with
  | mkPropValue typ payload =>
      match payload with
      | VArray a =>
          match dtype a with
          | dt_alias _ => false
          | _ => true
          end
      | VList l =>
          match typ with
          | Sequence elem_type =>
              forallb (fun elem => Type_eqb (type elem) elem_type && valid elem) l
          | _ => false
          end
      | VSome p =>
          match typ with
          | Optional elem_type =>
              Type_eqb (type p) elem_type && valid p && negb (is_VNone (value p))
          | _ => false
          end
      | VNone => true
      end
  end.

(** No present Optional occurs in the value. *)
Fixpoint some_free (self : PropValue) : bool :=
  match self with
  | mkPropValue _ payload =>
      match payload with
      | VArray _ | VNone => true
      | VList l => forallb some_free l
      | VSome _ => false
      end
  end.

(** No array of the value has the generic [object] dtype. *)
Fixpoint no_object (self : PropValue) : bool :=
  match self with
  | mkPropValue _ payload =>
      match payload with
      | VArray a =>
          match dtype a with
          | dt_object => false
          | _ => true
          end
      | VList l => forallb no_object l
      | VSome p => no_object p
      | VNone => true
      end
  end.

(** A present Optional occurs at most as the payload of the value itself. *)
Definition some_at_top_only (self : PropValue) : bool :=
  match value self with
  | VSome p => some_free p
  | _ => some_free self
  end.

(** *** Predicates on converted values *)

(** A value has the shape the conversions build: no array of a platform
    alias dtype, a list only under a Sequence and a nested value only under
    an Optional, each nested value declared with the element type of its
    parent. *)
Fixpoint shaped (self : PropValue) : bool :=
  match self with
  | mkPropValue typ payload =>
      match payload with
      | VArray a =>
          match dtype a with
          | dt_alias _ => false
          | _ => true
          end
      | VList l =>
          match typ with
          | Sequence elem_type =>
              forallb (fun elem => Type_eqb (type elem) elem_type && shaped elem) l
          | _ => false
          end
      | VSome p =>
          match typ with
          | Optional elem_type => Type_eqb (type p) elem_type && shaped p
          | _ => false
          end
      | VNone => true
      end
  end.

(** [check] accepts the value and every value nested in it. *)
Fixpoint checked (self : PropValue) : bool :=
  passes self &&
  match self with
  | mkPropValue _ payload =>
      match payload with
      | VList l => forallb checked l
      | VSome p => checked p
      | _ => true
      end
  end.

(** What the conversions establish about the value they return for the
    type [typ]: it is declared with [typ], it is [shaped], and under the
    strict flag it is [checked]. *)
Definition built (strict : bool) (typ : Type_) (v : PropValue) : Prop :=
  type v = typ /\ shaped v = true /\ (strict = true -> checked v = true).

End ValueProp.

(** ** More of the type system ([steelix/_type_system.py]) *)

(** [type_match]; [None] stands for a type that is not given. *)
Definition type_match (first second : option Type_) : bool :=
  match first, second with
  | None, _ => true
  | _, None => true
  | Some s, Some t => Type_le s t || Type_le t s
  end.

(** Whether the unknown type [Type()] occurs in a type. *)
Fixpoint has_unknown (t : Type_) : bool :=
  match t with
  | TypeUnknown => true
  | Tensor _ _ => false
  | Sequence a => has_unknown a
  | Optional a => has_unknown a
  end.

(** The type descriptor of the interchange format ([onnx.TypeProto]): at most
    one of the fields [tensor_type], [sequence_type] and [optional_type] is
    set.  A tensor type holds the code of its element kind and, when the
    field [shape] is set, its dimensions: a value, a name, or neither. *)
Inductive TypeProto : Set :=
  | tensor_type (elem_type : Z) (shape : option (list Shape.Dim))
  | sequence_type (elem_type : TypeProto)
  | optional_type (elem_type : TypeProto)
  | no_type.

(** What the field [dim_value] (an [int64]) or [dim_param] of a dimension
    holds for an axis. *)
Definition dim_in_range (d : Shape.Dim) : bool :=
  match d with
  | Shape.Constant n => int64_in_range (Z.of_N n)
  | _ => true
  end.

Definition dim_to_onnx (d : Shape.Dim) : result Shape.Dim :=
  if dim_in_range d then Ok d else Raise ValueError.

(** [onnx.helper.make_tensor_type_proto(elem_type, shape)]: the code goes
    into the [int32] field [elem_type]; the field [shape] is set when a
    shape is given, with one dimension for every axis. *)
Definition make_tensor_type_proto (elem_type : Z)
    (shape : option (list Shape.Dim)) : result TypeProto :=
  code <- int32_field elem_type ;;
  match shape with
  | None => Ok (tensor_type code None)
  | Some dims => ds <- mapM dim_to_onnx dims ;; Ok (tensor_type code (Some ds))
  end.

Section TypeProtos.

(** The two tables of [_utils.py], which is not among the sources: the code
    of an element kind, and the element kind of a code. *)
Variable dtype_to_tensor_type : ElemType -> Z.
Variable tensor_type_to_dtype : Z -> result ElemType.

(** [Type._to_onnx] and its overrides; the helpers
    [make_sequence_type_proto] and [make_optional_type_proto] set the field
    of their name. *)
Fixpoint Type_to_onnx (self : Type_) : result TypeProto :=
  match self with
  | TypeUnknown => Raise TypeError
  | Tensor elem_type _shape =>
      make_tensor_type_proto (dtype_to_tensor_type elem_type)
        (Shape.to_simple _shape)
  | Sequence elem_type =>
      p <- Type_to_onnx elem_type ;; Ok (sequence_type p)
  | Optional elem_type =>
      p <- Type_to_onnx elem_type ;; Ok (optional_type p)
  end.

(** The types whose descriptor the fields can hold: the code of the element
    kind is a 32-bit integer and every concrete axis a 64-bit integer. *)
Fixpoint encodable (t : Type_) : bool :=
  match t with
  | TypeUnknown => true
  | Tensor elem_type _shape =>
      int32_in_range (dtype_to_tensor_type elem_type)
      && match Shape.to_simple _shape with
         | None => true
         | Some dims => forallb dim_in_range dims
         end
  | Sequence a => encodable a
  | Optional a => encodable a
  end.

(** [Type._from_onnx]. *)
Fixpoint Type_from_onnx (proto : TypeProto) : result Type_ :=
  match proto with
  | tensor_type elem_type shape =>
      k <- tensor_type_to_dtype elem_type ;;
      Ok (Tensor_init k shape)
  | sequence_type elem_type =>
      t <- Type_from_onnx elem_type ;; Ok (Sequence t)
  | optional_type elem_type =>
      t <- Type_from_onnx elem_type ;; Ok (Optional t)
  | no_type => Raise ValueError
  end.

End TypeProtos.

(** The codes of [TensorProto.DataType] for the element kinds. *)
Definition data_type_code (k : ElemType) : Z :=
  match k with
  | float32 => 1 | uint8 => 2 | int8 => 3 | uint16 => 4 | int16 => 5
  | int32 => 6 | int64 => 7 | str_ => 8 | bool_ => 9 | float16 => 10
  | float64 => 11 | uint32 => 12 | uint64 => 13
  | complex64 => 14 | complex128 => 15
  end%Z.

Definition data_type_of_code (c : Z) : result ElemType :=
  match c with
  | 1 => Ok float32 | 2 => Ok uint8 | 3 => Ok int8 | 4 => Ok uint16
  | 5 => Ok int16 | 6 => Ok int32 | 7 => Ok int64 | 8 => Ok str_
  | 9 => Ok bool_ | 10 => Ok float16 | 11 => Ok float64 | 12 => Ok uint32
  | 13 => Ok uint64 | 14 => Ok complex64 | 15 => Ok complex128
  | _ => Raise TypeError
  end%Z.

(** ** The public interface ([spox/_public.py]) *)

Module Public.

(** The exceptions of the argument handling: the [TypeError]s it raises
    and the [KeyError] of a failed dict lookup. *)
Inductive error : Set := TypeError | KeyError.

Inductive outcome (A : Type) : Type :=
  | Done (a : A)
  | Fail (e : error).

Arguments Done {A} a.
Arguments Fail {A} e.

(** A dict with string keys, in insertion order, each key once. *)
Definition dict (V : Type) : Type := list (string * V).

Definition keys {V : Type} (d : dict V) : list string := map fst d.

(** [n in d]. *)
Definition contains {V : Type} (d : dict V) (n : string) : bool :=
  existsb (fun kv => String.eqb n (fst kv)) d.

(** [d[n]]. *)
Fixpoint getitem {V : Type} (d : dict V) (n : string) : outcome V :=
  match d with
  | [] => Fail KeyError
  | (k, v) :: d' => if String.eqb n k then Done v else getitem d' n
  end.

(** [d[n] = v]. *)
Fixpoint setitem {V : Type} (d : dict V) (n : string) (v : V) : dict V :=
  match d with
  | [] => [(n, v)]
  | (k, x) :: d' =>
      if String.eqb n k then (k, v) :: d' else (k, x) :: setitem d' n v
  end.

(** [a <= b] and [a == b] on the sets of two lists of names. *)
Definition subset (a b : list string) : bool :=
  forallb (fun n => existsb (String.eqb n) b) a.

Definition set_eqb (a b : list string) : bool := subset a b && subset b a.

(** [[f(n) for n in names]] with a lookup that may fail. *)
Fixpoint lookup_all {V : Type} (d : dict V) (names : list string)
    : outcome (list V) :=
  match names with
  | [] => Done []
  | n :: rest =>
      match getitem d n with
      | Done v =>
          match lookup_all d rest with
          | Done vs => Done (v :: vs)
          | Fail e => Fail e
          end
      | Fail e => Fail e
      end
  end.

Section Inline.

(** [Var] and [_internal_op.constant] belong to modules that are not among
    the sources; [to_array] is [onnx.numpy_helper.to_array] on an
    initializer of the model. *)
Variable Var : Type.
Variable Initializer : Type.
Variable to_array : Initializer -> ValueProp.ndarray.
Variable constant : ValueProp.ndarray -> Var.

(** What [inline] reads of the model: the names of the graph inputs, the
    initializers with their names, the names of the graph outputs. *)
Record ModelProto : Type := mkModelProto {
  graph_input : list string;
  graph_initializer : list (string * Initializer);
  graph_output : list string
}.

(** [in_defaults = {i.name: i for i in model.graph.initializer}]. *)
Definition in_defaults (model : ModelProto) : dict Initializer :=
  fold_left (fun d i => setitem d (fst i) (snd i)) (graph_initializer model) [].

(** The loop over [zip(in_names, args)]. *)
Fixpoint bind_positional (in_names : list string) (args : list Var)
    (kwargs : dict Var) : outcome (dict Var) :=
  match in_names, args with
  | name :: in_names', arg :: args' =>
      if contains kwargs name then Fail TypeError
      else bind_positional in_names' args' (setitem kwargs name arg)
  | _, _ => Done kwargs
  end.

(** The loop over [missing]: each missing input becomes the constant of
    its initializer, an [object] array being turned into text first. *)
Fixpoint fill_defaults (defaults : dict Initializer) (missing : list string)
    (kwargs : dict Var) : outcome (dict Var) :=
  match missing with
  | [] => Done kwargs
  | name :: rest =>
      match getitem defaults name with
      | Done i =>
          let array := to_array i in
          let array := match ValueProp.dtype array with
                       | ValueProp.dt_object =>
                           ValueProp.astype array (ValueProp.dt str_)
                       | _ => array
                       end in
          fill_defaults defaults rest (setitem kwargs name (constant array))
      | Fail e => Fail e
      end
  end.

(** [inline_inner], up to the inputs it hands to the [_Inline] node:
    [[kwargs[name] for name in in_names]].  The set [missing] is walked in
    the order of the model inputs. *)
Definition inline_inner (model : ModelProto) (args : list Var)
    (kwargs : dict Var) : outcome (list Var) :=
  let in_names := graph_input model in
  match bind_positional in_names args kwargs with
  | Fail e => Fail e
  | Done kwargs =>
      let missing :=
        nodup string_dec (filter (fun n => negb (contains kwargs n)) in_names) in
      if negb (subset missing (keys (in_defaults model))) then Fail TypeError
      else
        match fill_defaults (in_defaults model) missing kwargs with
        | Fail e => Fail e
        | Done kwargs =>
            if negb (set_eqb (keys kwargs) in_names) then Fail TypeError
            else lookup_all kwargs in_names
        end
  end.

End Inline.

End Public.

(** The value [inline_inner] resolves a model input to: the positional
    argument at the place of the input, else the keyword argument of its
    name, else the constant of the initializer of its name. *)
Module Resolution.

Import Public.

Definition is_some {A : Type} (o : option A) : bool :=
  match o with
  | Some _ => true
  | None => false
  end.

Section Resolve.

Variable Var : Type.
Variable Initializer : Type.
Variable to_array : Initializer -> ValueProp.ndarray.
Variable constant : ValueProp.ndarray -> Var.

(** The positional argument that [zip(in_names, args)] pairs with [name]. *)
Fixpoint positional (in_names : list string) (args : list Var) (name : string)
    : option Var :=
  match in_names, args with
  | n :: in_names', arg :: args' =>
      if String.eqb name n then Some arg else positional in_names' args' name
  | _, _ => None
  end.

(** The constant built from an initializer. *)
Definition default_of (i : Initializer) : Var :=
  let array := to_array i in
  constant (match ValueProp.dtype array with
            | ValueProp.dt_object => ValueProp.astype array (ValueProp.dt str_)
            | _ => array
            end).

Definition resolve (model : ModelProto Initializer) (args : list Var)
    (kwargs : dict Var) (name : string) : outcome Var :=
  match positional (graph_input model) args name with
  | Some arg => Done arg
  | None =>
      if contains kwargs name then getitem kwargs name
      else match getitem (in_defaults model) name with
           | Done i => Done (default_of i)
           | Fail e => Fail e
           end
  end.

End Resolve.

End Resolution.

(** * Properties *)

Unset Implicit Arguments.

(** ** Shapes and types *)

Section LatticeFacts.

Lemma dim_eqb_eq (x y : Shape.Dim) : Shape.dim_eqb x y = true <-> x = y.
Proof.
  destruct x, y; simpl; split; intro H; try discriminate; try reflexivity.
  - apply N.eqb_eq in H. now subst.
  - inversion H. apply N.eqb_refl.
  - apply String.eqb_eq in H. now subst.
  - inversion H. apply String.eqb_refl.
Qed.

Lemma dims_eqb_eq (xs ys : list Shape.Dim) :
  Shape.dims_eqb xs ys = true <-> xs = ys.
Proof.
  revert ys. induction xs as [|x xs IH]; intros [|y ys]; simpl;
    split; intro H; try discriminate; try reflexivity.
  - apply andb_true_iff in H as [Hx Hxs].
    apply dim_eqb_eq in Hx. apply IH in Hxs. now subst.
  - inversion H; subst. apply andb_true_iff. split.
    + now apply dim_eqb_eq.
    + now apply IH.
Qed.

Lemma Shape_eqb_eq (a b : Shape.t) : Shape.eqb a b = true <-> a = b.
Proof.
  destruct a as [xs|], b as [ys|]; simpl; split; intro H;
    try discriminate; try reflexivity.
  - apply dims_eqb_eq in H. now subst.
  - inversion H. now apply dims_eqb_eq.
Qed.

Lemma ElemType_eqb_eq (a b : ElemType) : ElemType_eqb a b = true <-> a = b.
Proof. destruct a, b; simpl; split; intro H; try discriminate; reflexivity. Qed.

Lemma ElemType_eqb_refl (a : ElemType) : ElemType_eqb a a = true.
Proof. now apply ElemType_eqb_eq. Qed.

Lemma Type_eqb_eq (s t : Type_) : Type_eqb s t = true <-> s = t.
Proof.
  revert t. induction s as [|k sh|a IH|a IH]; intros [|k' sh'|b|b]; simpl;
    split; intro H; try discriminate; try reflexivity.
  - apply andb_true_iff in H as [Hk Hsh].
    apply ElemType_eqb_eq in Hk. apply Shape_eqb_eq in Hsh. now subst.
  - inversion H; subst. apply andb_true_iff. split.
    + apply ElemType_eqb_refl.
    + now apply Shape_eqb_eq.
  - apply IH in H. now subst.
  - inversion H; subst. now apply IH.
  - apply IH in H. now subst.
  - inversion H; subst. now apply IH.
Qed.

Lemma Type_eqb_refl (t : Type_) : Type_eqb t t = true.
Proof. now apply Type_eqb_eq. Qed.

Lemma Type_eqb_neq (s t : Type_) : Type_eqb s t = false <-> s <> t.
Proof.
  split.
  - intros H E. apply Type_eqb_eq in E. congruence.
  - intro H. destruct (Type_eqb s t) eqn:E; [|reflexivity].
    apply Type_eqb_eq in E. contradiction.
Qed.

Lemma dim_le_refl (x : Shape.Dim) : Shape.dim_le x x = true.
Proof. destruct x; simpl; auto using N.eqb_refl, String.eqb_refl. Qed.

Lemma dims_le_refl (xs : list Shape.Dim) : Shape.dims_le xs xs = true.
Proof.
  induction xs as [|x xs IH]; simpl; [reflexivity|].
  now rewrite dim_le_refl, IH.
Qed.

(** Section 8 of the spec: [a <= a] for every shape. *)
Lemma Shape_le_refl (a : Shape.t) : Shape.le a a = true.
Proof. destruct a as [xs|]; simpl; [apply dims_le_refl | reflexivity]. Qed.

Lemma dim_join_idem (x : Shape.Dim) : Shape.dim_join x x = x.
Proof.
  unfold Shape.dim_join.
  now replace (Shape.dim_eqb x x) with true by (symmetry; now apply dim_eqb_eq).
Qed.

Lemma dims_join_idem (xs : list Shape.Dim) : Shape.dims_join xs xs = xs.
Proof.
  induction xs as [|x xs IH]; simpl; [reflexivity|].
  now rewrite dim_join_idem, IH.
Qed.

Lemma Shape_join_idem (a : Shape.t) : Shape.join a a = a.
Proof.
  destruct a as [xs|]; simpl; [|reflexivity].
  now rewrite Nat.eqb_refl, dims_join_idem.
Qed.

Lemma Type_or_idem (t : Type_) : Type_or t t = t.
Proof.
  induction t as [|k sh|a IH|a IH]; simpl.
  - reflexivity.
  - rewrite ElemType_eqb_refl. simpl.
    unfold Tensor_init, Shape.to_simple, Shape.from_simple.
    now rewrite Shape_join_idem.
  - now rewrite IH.
  - now rewrite IH.
Qed.

End LatticeFacts.

(** C2, as the code has it.  The unknown type is comparable with everything:
    [x <= Type()] and [Type() <= x] hold for every Type [x]; two Types of
    differing variants, neither of them the unknown type, are incomparable. *)
Theorem Type_le_mismatched_variants (s t : Type_) :
  Type_le s TypeUnknown = true /\
  Type_le TypeUnknown t = true /\
  (variant s <> variant t -> s <> TypeUnknown -> t <> TypeUnknown ->
   Type_le s t = false).
Proof.
  split; [|split].
  - destruct s; reflexivity.
  - reflexivity.
  - intros Hv Hs Ht.
    destruct s as [|k sh|a|a]; [contradiction| | |];
      destruct t as [|k' sh'|b|b]; simpl in *;
      try contradiction; try reflexivity; exfalso; apply Hv; reflexivity.
Qed.

Lemma Type_le_mismatched_variants_witness :
  Type_le (Sequence TypeUnknown) (Tensor int64 None) = false.
Proof.
  apply (proj2 (proj2 (Type_le_mismatched_variants
                         (Sequence TypeUnknown) (Tensor int64 None))));
    discriminate.
Defined.

(** C2 as stated fails: the unknown type on the left is below a Tensor,
    although the variants differ and the right side is not the unknown
    type. *)
Lemma Type_le_unknown_left_counterexample :
  ~ (forall s t : Type_,
        variant s <> variant t -> t <> TypeUnknown -> Type_le s t = false).
Proof.
  intro H.
  specialize (H TypeUnknown (Tensor int64 (Some [])%list)).
  simpl in H. discriminate H; discriminate.
Qed.

(** C3.  Between two Tensors, [s <= t] holds exactly when the element kinds
    are identical and the shapes are in the shape order. *)
Theorem Tensor_le_iff (k1 k2 : ElemType) (sh1 sh2 : Shape.SimpleShape) :
  Type_le (Tensor_init k1 sh1) (Tensor_init k2 sh2) = true <->
  (k1 = k2 /\ Shape.le (Shape.from_simple sh1) (Shape.from_simple sh2) = true).
Proof.
  unfold Tensor_init, Shape.from_simple. simpl.
  destruct (ElemType_eqb k1 k2 && Shape.eqb sh1 sh2) eqn:E.
  - apply andb_true_iff in E as [Hk Hsh].
    apply ElemType_eqb_eq in Hk. apply Shape_eqb_eq in Hsh. subst.
    split; [intros _|reflexivity]. split; [reflexivity|apply Shape_le_refl].
  - unfold issubclass. rewrite andb_true_iff, ElemType_eqb_eq. tauto.
Qed.

Lemma Tensor_le_iff_witness :
  Type_le
    (Tensor_init int64
       (Some [Shape.Constant 1; Shape.Constant 2; Shape.Constant 3]%list))
    (Tensor_init int64 None) = true.
Proof.
  apply (proj2 (Tensor_le_iff int64 int64
                  (Some [Shape.Constant 1; Shape.Constant 2; Shape.Constant 3]%list)
                  None)).
  split; reflexivity.
Defined.

(** C4.  The join returns [s] on equal arguments, the unknown type on
    mismatched variants and on Tensors of different element kinds; it joins the
    element types of two Sequences and of two Optionals, and the shapes of two
    Tensors of one element kind.  The two examples of the docstring hold. *)
Theorem Type_or_spec :
  (forall s : Type_, Type_or s s = s) /\
  (forall s t : Type_, variant s <> variant t -> Type_or s t = TypeUnknown) /\
  (forall k1 k2 sh1 sh2, k1 <> k2 ->
     Type_or (Tensor_init k1 sh1) (Tensor_init k2 sh2) = TypeUnknown) /\
  (forall a b, Type_or (Sequence a) (Sequence b) = Sequence (Type_or a b)) /\
  (forall a b, Type_or (Optional a) (Optional b) = Optional (Type_or a b)) /\
  (forall k sh1 sh2,
     Type_or (Tensor_init k sh1) (Tensor_init k sh2) =
     Tensor_init k (Shape.to_simple
                      (Shape.join (Shape.from_simple sh1) (Shape.from_simple sh2)))) /\
  Type_or (Tensor_init int64 (Some [Shape.Constant 3; Shape.Constant 5]%list))
          (Tensor_init int64 (Some []%list))
    = Tensor_init int64 None /\
  Type_or (Tensor_init int64 (Some [Shape.Symbolic "M"; Shape.Constant 3]%list))
          (Tensor_init int64 (Some [Shape.Symbolic "M"; Shape.Symbolic "N"]%list))
    = Tensor_init int64 (Some [Shape.Symbolic "M"; Shape.Unknown]%list).
Proof.
  repeat split.
  - apply Type_or_idem.
  - intros s t Hv.
    destruct s, t; simpl in *; try reflexivity; exfalso; apply Hv; reflexivity.
  - intros k1 k2 sh1 sh2 Hk. simpl.
    destruct (ElemType_eqb k1 k2) eqn:E; [|reflexivity].
    apply ElemType_eqb_eq in E. contradiction.
  - intros k sh1 sh2. simpl. now rewrite ElemType_eqb_refl.
Qed.

Lemma Type_or_spec_witness :
  Type_or (Sequence (Tensor_init int64 None)) (Optional TypeUnknown) = TypeUnknown
  /\ Type_or (Tensor_init int64 None) (Tensor_init float32 None) = TypeUnknown.
Proof.
  split.
  - apply (proj1 (proj2 Type_or_spec)). discriminate.
  - apply (proj1 (proj2 (proj2 Type_or_spec))). discriminate.
Defined.

(** ** Attributes *)

Section AttributeFacts.

Import Attributes.

Lemma mapM_Forall2 {A B : Type} (f : A -> result B) (xs : list A) (ys : list B) :
  mapM f xs = Ok ys <-> Forall2 (fun x y => f x = Ok y) xs ys.
Proof.
  revert ys. induction xs as [|x xs IH]; intros ys; simpl.
  - split; intro H.
    + inversion H. constructor.
    + inversion H. reflexivity.
  - split; intro H.
    + destruct (f x) as [y|e] eqn:Fx; simpl in H; [|discriminate].
      destruct (mapM f xs) as [ys'|e] eqn:Fxs; simpl in H; [|discriminate].
      inversion H; subst. constructor; [assumption|]. now apply IH.
    + inversion H as [|x' y xs' ys' Hxy Hrest]; subst.
      rewrite Hxy. simpl. apply IH in Hrest. rewrite Hrest. reflexivity.
Qed.


Lemma mapM_map {A B C : Type} (f : A -> result C) (g : B -> A) (h : B -> C)
    (ys : list B) :
  (forall y, f (g y) = Ok (h y)) -> mapM f (map g ys) = Ok (map h ys).
Proof.
  intro H. induction ys as [|y ys IH]; simpl; [reflexivity|].
  now rewrite H, IH.
Qed.

Lemma forallb_type_of (exp_t : ExpT) (items : list PyVal) :
  forallb (fun t => issubclass t exp_t) (map type_of items) =
  forallb (fun v => isinstance v exp_t) items.
Proof.
  induction items as [|v items IH]; simpl; [reflexivity|].
  now rewrite IH.
Qed.

(** A tuple is none of the singular kinds. *)
Lemma _deduce_type_tuple (items : list PyVal) :
  _deduce_type (PyTuple items) =
  if Nat.eqb (List.length items) 0 then Raise ValueError
  else match first_candidate (map type_of items) iterable_candidates with
       | Some exp_enum => Ok exp_enum
       | None => Raise ValueError
       end.
Proof. reflexivity. Qed.

(** The kind of a non-empty tuple of reals: the integer list kind when all
    elements are integral, the float list kind otherwise. *)
Lemma _deduce_type_reals (items : list PyVal) :
  items <> [] ->
  forallb (fun v => isinstance v Real) items = true ->
  _deduce_type (PyTuple items) =
  Ok (if forallb (fun v => isinstance v Integral) items then INTS else FLOATS).
Proof.
  intros Hne Hreal. rewrite _deduce_type_tuple.
  replace (Nat.eqb (List.length items) 0) with false
    by (destruct items; [contradiction|reflexivity]).
  unfold iterable_candidates. cbn [first_candidate].
  rewrite !forallb_type_of.
  destruct (forallb (fun v => isinstance v Integral) items); [reflexivity|].
  now rewrite Hreal.
Qed.

Lemma forallb_Integral_map_PyInt (zs : list Z) :
  forallb (fun v => isinstance v Integral) (map PyInt zs) = true.
Proof. induction zs; simpl; auto. Qed.

Lemma Integral_is_Real (items : list PyVal) :
  forallb (fun v => isinstance v Integral) items = true ->
  forallb (fun v => isinstance v Real) items = true.
Proof.
  induction items as [|v items IH]; cbn [forallb]; [auto|].
  intro H. apply andb_true_iff in H as [Hv Hrest].
  rewrite (IH Hrest), andb_true_r.
  destruct v; simpl in *; try discriminate; reflexivity.
Qed.

(** The range of a 64-bit field. *)
Lemma int64_in_range_true (z : Z) :
  int64_in_range z = true <-> (- 2 ^ 63 <= z < 2 ^ 63)%Z.
Proof.
  unfold int64_in_range. rewrite andb_true_iff, Z.leb_le, Z.ltb_lt. tauto.
Qed.

Lemma int64_in_range_false (z : Z) :
  int64_in_range z = false <-> (z < - 2 ^ 63 \/ 2 ^ 63 <= z)%Z.
Proof.
  unfold int64_in_range. rewrite andb_false_iff, Z.leb_gt, Z.ltb_ge. tauto.
Qed.

Lemma mapM_as_int_item_Ok (zs : list Z) :
  Forall (fun z => (- 2 ^ 63 <= z < 2 ^ 63)%Z) zs ->
  mapM as_int_item (map PyInt zs) = Ok zs.
Proof.
  induction 1 as [|z zs Hz _ IH]; [reflexivity|].
  cbn [map mapM as_int_item]. unfold int64_field.
  apply int64_in_range_true in Hz. rewrite Hz. cbn [bind]. now rewrite IH.
Qed.

Lemma mapM_as_int_item_Raise (zs : list Z) :
  Exists (fun z => (z < - 2 ^ 63 \/ 2 ^ 63 <= z)%Z) zs ->
  mapM as_int_item (map PyInt zs) = Raise ValueError.
Proof.
  induction 1 as [z zs Hz | z zs _ IH]; cbn [map mapM as_int_item];
    unfold int64_field.
  - apply int64_in_range_false in Hz. now rewrite Hz.
  - destruct (int64_in_range z); [|reflexivity]. cbn [bind]. now rewrite IH.
Qed.

Lemma mapM_as_float_floats (xs : list spec_float) :
  mapM as_float (map PyFloat xs) = Ok (map float_field xs).
Proof. apply mapM_map. reflexivity. Qed.

(** [float] of an integer is a number or raises [OverflowError]. *)
Lemma float_of_int_cases (z : Z) :
  (float_of_int z = Ok (binary_normalize 53 1024 z 0 false) /\
   is_infinity (binary_normalize 53 1024 z 0 false) = false) \/
  (float_of_int z = Raise OverflowError /\
   is_infinity (binary_normalize 53 1024 z 0 false) = true).
Proof.
  unfold float_of_int.
  destruct (binary_normalize 53 1024 z 0 false); cbn [is_infinity]; auto.
Qed.

Lemma float_of_int_bool (b : bool) :
  float_of_int (if b then 1 else 0) =
  Ok (binary_normalize 53 1024 (if b then 1 else 0) 0 false).
Proof. destruct b; reflexivity. Qed.

End AttributeFacts.

Section AttributeConstruction.

Import Attributes.

Variable from_array : PyVal -> result PyVal.
Variable float_of_text : string -> result spec_float.

#[local, warnings="-notation-for-abbreviation"]
Notation to_onnx := (_to_onnx from_array float_of_text) (only parsing).

(** C6, as the code has it.  An integer list attribute built from a
    non-empty tuple of integers is accepted; it serializes to the integer
    list kind with the elements in order when every element lies in the
    signed 64-bit range, and raises [ValueError] when one does not.  A list
    attribute built from an empty iterable is rejected; one whose deduced
    kind differs from the declared kind, or whose kind cannot be deduced,
    is rejected. *)
Theorem AttrInt64s_construction (key : string) :
  (forall zs : list Z, zs <> [] ->
     let a := AttrLit AttrInt64s (PyTuple (map PyInt zs)) in
     new AttrInt64s (Literal (PyTuple (map PyInt zs))) = Ok a /\
     (Forall (fun z => (- 2 ^ 63 <= z < 2 ^ 63)%Z) zs ->
      to_onnx a key =
      Ok (mkAttributeProto key EmptyString INTS (S754_zero false) 0
            EmptyString [] zs [] [])) /\
     (Exists (fun z => (z < - 2 ^ 63 \/ 2 ^ 63 <= z)%Z) zs ->
      to_onnx a key = Raise ValueError)) /\
  (forall cls v, is_iterable_class cls = true -> iter v = Ok [] ->
     new cls (Literal v) = Raise ValueError) /\
  (forall cls items ty, is_iterable_class cls = true ->
     _deduce_type (PyTuple items) = Ok ty ->
     ty <> _attribute_proto_type_int cls ->
     new cls (Literal (PyTuple items)) = Raise TypeError) /\
  (forall cls items e, is_iterable_class cls = true ->
     _deduce_type (PyTuple items) = Raise e ->
     new cls (Literal (PyTuple items)) = Raise e).
Proof.
  split; [|split; [|split]].
  - intros zs Hne a. split; [|split].
    + unfold new, AttrIterable_init, Attr_init, _validate. simpl.
      rewrite (_deduce_type_reals (map PyInt zs)).
      * now rewrite forallb_Integral_map_PyInt.
      * destruct zs; [contradiction|discriminate].
      * apply Integral_is_Real, forallb_Integral_map_PyInt.
    + intro Hall. unfold a. cbn [_to_onnx _to_onnx_deref].
      unfold make_attribute. cbn [bind].
      now rewrite (mapM_as_int_item_Ok zs Hall).
    + intro Hex. unfold a. cbn [_to_onnx _to_onnx_deref].
      unfold make_attribute. cbn [bind].
      now rewrite (mapM_as_int_item_Raise zs Hex).
  - intros cls v Hcls Hv. unfold new. rewrite Hcls.
    unfold AttrIterable_init. rewrite Hv. simpl.
    unfold Attr_init, _validate. simpl.
    destruct cls; try discriminate; reflexivity.
  - intros cls items ty Hcls Hty Hneq. unfold new. rewrite Hcls.
    unfold AttrIterable_init, Attr_init, _validate. simpl iter. simpl bind at 1.
    assert (E : AttributeType_eqb ty (_attribute_proto_type_int cls) = false).
    { destruct ty, cls; try reflexivity; try discriminate; contradiction. }
    destruct cls; try discriminate;
      cbn [class_of value _attribute_proto_type_int] in *;
      rewrite Hty; cbn [bind]; rewrite E; reflexivity.
  - intros cls items e Hcls He. unfold new. rewrite Hcls.
    unfold AttrIterable_init, Attr_init, _validate. simpl iter. simpl bind at 1.
    destruct cls; try discriminate; cbn [class_of value];
      rewrite He; reflexivity.
Qed.

End AttributeConstruction.

Section AttributeConstructionExamples.

Import Attributes.

Lemma AttrInt64s_construction_witness :
  (new AttrInt64s
     (Literal
        (PyTuple
           [PyInt 1; PyInt 2; PyInt 3])) =
   Ok (AttrLit AttrInt64s
         (PyTuple
            [PyInt 1; PyInt 2; PyInt 3])) /\
   forall from_array float_of_text,
     _to_onnx from_array float_of_text
       (AttrLit AttrInt64s
          (PyTuple
             [PyInt 1; PyInt 2; PyInt 3]))
       "axes" =
     Ok (mkAttributeProto "axes" EmptyString INTS
           (S754_zero false) 0 EmptyString [] [1; 2; 3]%Z [] [])) /\
  new AttrStrings
    (Literal (PyTuple [])) = Raise ValueError /\
  new AttrTensors
    (Literal (PyTuple [])) = Raise ValueError /\
  new AttrInt64s
    (Literal
       (PyTuple
          [PyInt 1;
           PyFloat (S754_finite false 4503599627370496 (-53))])) =
    Raise TypeError /\
  new AttrInt64s
    (Literal
       (PyTuple [PyInt 1; PyStr "x"])) =
    Raise ValueError.
Proof.
  pose (fa := fun _ : PyVal => @Raise PyVal TypeError).
  pose (ft := fun _ : string => @Raise spec_float ValueError).
  split; [split|split; [|split; [|split]]].
  - apply (proj1 (AttrInt64s_construction fa ft "axes") [1; 2; 3]%Z).
    discriminate.
  - intros from_array float_of_text.
    apply (proj1 (AttrInt64s_construction from_array float_of_text "axes")
             [1; 2; 3]%Z ltac:(discriminate)).
    repeat constructor; discriminate.
  - apply (proj1 (proj2 (AttrInt64s_construction fa ft "axes"))); reflexivity.
  - apply (proj1 (proj2 (AttrInt64s_construction fa ft "axes"))); reflexivity.
  - apply (proj1 (proj2 (proj2 (AttrInt64s_construction fa ft "axes")))
             AttrInt64s
             [PyInt 1;
              PyFloat (S754_finite false 4503599627370496 (-53))]
             FLOATS);
      [reflexivity | reflexivity | discriminate].
  - apply (proj2 (proj2 (proj2 (AttrInt64s_construction fa ft "axes"))));
      reflexivity.
Defined.

(** C6 as stated fails: the constructor accepts an integer that the 64-bit
    field of the record cannot hold, and serializing the attribute raises
    [ValueError]. *)
Lemma AttrInt64s_range_counterexample :
  new AttrInt64s
    (Literal (PyTuple [PyInt (2 ^ 63)])) =
  Ok (AttrLit AttrInt64s
        (PyTuple [PyInt (2 ^ 63)])) /\
  (forall from_array float_of_text key,
     _to_onnx from_array float_of_text
       (AttrLit AttrInt64s
          (PyTuple [PyInt (2 ^ 63)])) key =
     Raise ValueError).
Proof. split; reflexivity. Qed.

End AttributeConstructionExamples.

Section FloatLists.

Import Attributes.

Variable from_array : PyVal -> result PyVal.
Variable float_of_text : string -> result spec_float.

#[local, warnings="-notation-for-abbreviation"]
Notation to_onnx := (_to_onnx from_array float_of_text) (only parsing).
#[local, warnings="-notation-for-abbreviation"]
Notation float' := (float float_of_text) (only parsing).

(** The binary64 number that [float] gives for a real. *)
Lemma mapM_float_reals (items : list PyVal) (xs : list spec_float) :
  Forall2 (fun v x =>
             match v with
             | PyInt z =>
                 x = binary_normalize 53 1024 z 0 false /\
                 is_infinity x = false
             | PyBool b =>
                 x = binary_normalize 53 1024 (if b then 1 else 0) 0 false
             | PyFloat y => x = y
             | _ => False
             end) items xs ->
  mapM float' items = Ok xs.
Proof.
  induction 1 as [|v x items xs Hv _ IH]; [reflexivity|].
  cbn [mapM]. rewrite IH.
  destruct v as [z|b|y|t|t|c| | |l]; try contradiction; cbn [float].
  - destruct Hv as [-> Hfin].
    destruct (float_of_int_cases z) as [[-> _] | [_ Hinf]]; [reflexivity|].
    congruence.
  - subst x. now rewrite float_of_int_bool.
  - now subst x.
Qed.

Lemma mapM_float_overflow (items : list PyVal) :
  forallb (fun v => isinstance v Real) items = true ->
  Exists (fun v => exists z, v = PyInt z /\
                   is_infinity (binary_normalize 53 1024 z 0 false) = true)
    items ->
  mapM float' items = Raise OverflowError.
Proof.
  intros Hreal Hex. induction Hex as [v items [z [-> Hz]] | v items _ IH].
  - cbn [mapM float].
    destruct (float_of_int_cases z) as [[_ Hfin] | [-> _]]; [congruence|].
    reflexivity.
  - cbn [forallb] in Hreal. apply andb_true_iff in Hreal as [Hv Hreal].
    cbn [mapM]. rewrite (IH Hreal).
    destruct v as [z|b|y|t|t|c| | |l]; try discriminate Hv; cbn [float].
    + destruct (float_of_int_cases z) as [[-> _] | [-> _]]; reflexivity.
    + now rewrite float_of_int_bool.
    + reflexivity.
Qed.

(** C10, as the code has it.  For a non-empty tuple of integers and floats,
    the deduced kind is the integer list kind exactly when every element is
    an integer.  When some element is not, a float list attribute is
    accepted.  Its serialization holds, in order, the binary32 number
    nearest to every element, an integer being first taken to the nearest
    binary64 number; it raises [OverflowError] when an integer element is
    beyond the binary64 range. *)
Theorem AttrFloat32s_mixed (key : string) (items : list PyVal) :
  items <> [] ->
  forallb (fun v => isinstance v Real) items = true ->
  (_deduce_type (PyTuple items) = Ok INTS <->
   forallb (fun v => isinstance v Integral) items = true) /\
  (forallb (fun v => isinstance v Integral) items = false ->
   let a := AttrLit AttrFloat32s (PyTuple items) in
   _deduce_type (PyTuple items) = Ok FLOATS /\
   new AttrFloat32s (Literal (PyTuple items)) = Ok a /\
   (forall xs,
      Forall2 (fun v x =>
                 match v with
                 | PyInt z =>
                     x = binary_normalize 53 1024 z 0 false /\
                     is_infinity x = false
                 | PyBool b =>
                     x = binary_normalize 53 1024 (if b then 1 else 0) 0 false
                 | PyFloat y => x = y
                 | _ => False
                 end) items xs ->
      to_onnx a key =
      Ok (mkAttributeProto key EmptyString FLOATS (S754_zero false) 0
            EmptyString (map float_field xs) [] [] [])) /\
   (Exists (fun v => exists z, v = PyInt z /\
                     is_infinity (binary_normalize 53 1024 z 0 false) = true)
      items ->
    to_onnx a key = Raise OverflowError)).
Proof.
  intros Hne Hreal.
  pose proof (_deduce_type_reals items Hne Hreal) as Hd.
  split.
  - rewrite Hd.
    destruct (forallb (fun v => isinstance v Integral) items);
      split; intro H; try reflexivity; discriminate.
  - intros Hmixed a. rewrite Hmixed in Hd.
    split; [assumption|]. split; [|split].
    + unfold new, AttrIterable_init, Attr_init, _validate. simpl.
      fold (_deduce_type (PyTuple items)). now rewrite Hd.
    + intros xs Hxs. unfold a. cbn [_to_onnx _to_onnx_deref iter bind].
      rewrite (mapM_float_reals items xs Hxs). cbn [bind].
      unfold make_attribute. cbn [bind].
      now rewrite mapM_as_float_floats.
    + intro Hex. unfold a. cbn [_to_onnx _to_onnx_deref iter bind].
      now rewrite (mapM_float_overflow items Hreal Hex).
Qed.

End FloatLists.

Section FloatExamples.

Import Attributes.

(** The tuple [(1, 0.1)]: the integer becomes [1.0], and the binary64 number
    nearest to one tenth is stored as the binary32 number nearest to it. *)
Lemma AttrFloat32s_mixed_witness :
  let tenth := S754_finite false 7205759403792794 (-56) in
  let items := [PyInt 1; PyFloat tenth] in
  new AttrFloat32s
    (Literal (PyTuple items)) =
    Ok (AttrLit AttrFloat32s (PyTuple items)) /\
  (forall from_array float_of_text,
     _to_onnx from_array float_of_text
       (AttrLit AttrFloat32s (PyTuple items))
       "scales" =
     Ok (mkAttributeProto "scales" EmptyString FLOATS
           (S754_zero false) 0 EmptyString
           [S754_finite false 8388608 (-23); S754_finite false 13421773 (-27)]
           [] [] [])).
Proof.
  intros tenth items. split.
  - apply (proj2 (AttrFloat32s_mixed
                    (fun _ => Raise TypeError) (fun _ => Raise ValueError)
                    "scales" items ltac:(discriminate) eq_refl) eq_refl).
  - intros from_array float_of_text.
    apply (proj1 (proj2 (proj2 (proj2 (AttrFloat32s_mixed
                    from_array float_of_text
                    "scales" items ltac:(discriminate) eq_refl) eq_refl)))
             [S754_finite false 4503599627370496 (-52); tenth]).
    repeat constructor.
Defined.

(** C10 as stated fails: the constructor accepts an integer that no float
    can hold, and serializing the attribute raises [OverflowError]. *)
Lemma AttrFloat32s_overflow_counterexample :
  let items :=
    [PyInt (10 ^ 400);
     PyFloat (S754_finite false 4503599627370496 (-53))] in
  new AttrFloat32s
    (Literal (PyTuple items)) =
    Ok (AttrLit AttrFloat32s (PyTuple items)) /\
  (forall from_array float_of_text key,
     _to_onnx from_array float_of_text
       (AttrLit AttrFloat32s (PyTuple items))
       key =
     Raise OverflowError).
Proof. split; [reflexivity|]. intros. vm_compute. reflexivity. Qed.

(** The largest integer [float] takes is the one just below
    [2 ^ 1024 - 2 ^ 970], which would round to [2 ^ 1024]. *)
Example float_of_int_largest :
  float_of_int (2 ^ 1024 - 2 ^ 970 - 1) =
    Ok (S754_finite false 9007199254740991 971) /\
  float_of_int (2 ^ 1024 - 2 ^ 970) = Raise OverflowError /\
  float_of_int (- (2 ^ 1024 - 2 ^ 970)) = Raise OverflowError.
Proof. repeat split; vm_compute; reflexivity. Qed.

(** A float field rounds to nearest, loses what binary32 cannot hold, and
    keeps zeros, infinities and NaN. *)
Example float_field_examples :
  float_field (S754_finite false 5629499534213120 (-51)) =
    S754_finite false 10485760 (-22) /\
  float_field (S754_finite false 7205759403792794 (-56)) =
    S754_finite false 13421773 (-27) /\
  float_field (S754_finite false 1 (-1074)) = S754_zero false /\
  float_field (S754_finite true 1 (-1074)) = S754_zero true /\
  float_field (S754_finite false 4503599627370496 81) = S754_infinity false /\
  float_field S754_nan = S754_nan.
Proof. repeat split; vm_compute; reflexivity. Qed.

(** A tuple of integers only is deduced as an integer list, which a float
    list attribute does not accept. *)
Example AttrFloat32s_integers_only :
  new AttrFloat32s (Literal (PyTuple [PyInt 1; PyInt 2])) = Raise TypeError.
Proof. reflexivity. Qed.

End FloatExamples.

Section References.

Import Attributes.

Variable from_array : PyVal -> result PyVal.
Variable float_of_text : string -> result spec_float.

#[local, warnings="-notation-for-abbreviation"]
Notation to_onnx := (_to_onnx from_array float_of_text) (only parsing).
#[local, warnings="-notation-for-abbreviation"]
Notation to_onnx_deref := (_to_onnx_deref from_array float_of_text) (only parsing).

(** Induction along a reference chain. *)
Lemma Attr_chain_ind (P : Attr -> Prop) :
  (forall cls v, P (AttrLit cls v)) ->
  (forall cls c outer, P c -> P (AttrRef cls (mk_Ref c outer))) ->
  forall a, P a.
Proof.
  intros Hlit Href. fix IH 1.
  intros [cls v | cls [c outer]].
  - apply Hlit.
  - apply Href, IH.
Qed.

Lemma value_ref cls c outer :
  value (AttrRef cls (mk_Ref c outer)) = value c.
Proof. destruct c; reflexivity. Qed.



Lemma value_target (a : Attr) : value a = value (target a).
Proof.
  induction a as [cls v | cls c outer IH] using Attr_chain_ind.
  - reflexivity.
  - now rewrite value_ref.
Qed.

Lemma target_is_literal (a : Attr) :
  exists cls, target a = AttrLit cls (value a).
Proof.
  induction a as [cls v | cls c outer [cls' IH]] using Attr_chain_ind.
  - now exists cls.
  - exists cls'. now rewrite value_ref.
Qed.

Lemma _to_onnx_ref cls c outer key :
  to_onnx (AttrRef cls (mk_Ref c outer)) key =
  (parent <- to_onnx c key ;; Ok (AttributeProto_init key outer (type parent))).
Proof. reflexivity. Qed.

(** Serializing anywhere along the chain succeeds or fails with the literal
    at its end, and reports the kind of that literal's record. *)
Lemma _to_onnx_chain (a : Attr) (key : string) :
  match to_onnx (target a) key with
  | Ok p => exists p', to_onnx a key = Ok p' /\ type p' = type p
  | Raise e => to_onnx a key = Raise e
  end.
Proof.
  induction a as [cls v | cls c outer IH] using Attr_chain_ind.
  - cbn [target]. destruct (to_onnx (AttrLit cls v) key); eauto.
  - cbn [target]. rewrite _to_onnx_ref.
    destruct (to_onnx (target c) key) as [p|e].
    + destruct IH as [p' [Hp' Hty]]. rewrite Hp'. cbn [bind].
      eexists. split; [reflexivity|]. exact Hty.
    + now rewrite IH.
Qed.

Lemma bind_Ok_inv {A B : Type} (r : result A) (k : A -> result B) (b : B) :
  bind r k = Ok b -> exists a, r = Ok a /\ k a = Ok b.
Proof. destruct r as [a|e]; simpl; [eauto|discriminate]. Qed.

Ltac inv_bind H :=
  let x := fresh "x" in
  let Hx := fresh "Hx" in
  apply bind_Ok_inv in H as [x [Hx H]].

(** A record made by [make_attribute] is named [key] and refers to no
    outer attribute. *)
Lemma make_attribute_plain key v attr_type p :
  make_attribute key v attr_type = Ok p ->
  name p = key /\ ref_attr_name p = EmptyString.
Proof.
  unfold make_attribute. intro H. inv_bind H.
  assert (Hfilled : name x = key /\ ref_attr_name x = EmptyString).
  { clear H. destruct v;
      repeat match type of Hx with
             | bind _ _ = Ok _ => inv_bind Hx
             | match ?ty with _ => _ end = Ok _ => destruct ty; try discriminate
             end;
      inversion Hx; subst; split; reflexivity. }
  destruct attr_type as [ty|].
  - destruct (AttributeType_eqb (type x) ty); [|discriminate].
    inversion H; subst. exact Hfilled.
  - inversion H; subst. exact Hfilled.
Qed.

Lemma _to_onnx_deref_plain cls v key p :
  to_onnx_deref cls v key = Ok p ->
  name p = key /\ ref_attr_name p = EmptyString.
Proof.
  destruct cls; cbn [_to_onnx_deref]; intro H;
    repeat match type of H with
           | bind _ _ = Ok _ => inv_bind H
           | (if ?c then _ else _) = Ok _ => destruct c
           end;
    try discriminate; eauto using make_attribute_plain.
Qed.



End References.

Section ReferenceSerialization.

Import Attributes.

Variable from_array : PyVal -> result PyVal.
Variable float_of_text : string -> result spec_float.

#[local, warnings="-notation-for-abbreviation"]
Notation to_onnx := (_to_onnx from_array float_of_text) (only parsing).


End ReferenceSerialization.

Section ReferenceExamples.

Import Attributes.

#[local, warnings="-notation-for-abbreviation"]
Notation two_and_a_half := (S754_finite false 5629499534213120 (-51))
  (only parsing).



(** Section 8 of the spec: the three-level chain over [Float(2.5)] named
    "alpha". *)
Example three_level_chain (from_array : PyVal -> result PyVal)
    (float_of_text : string -> result spec_float) :
  let outer := AttrLit AttrFloat32 (PyFloat two_and_a_half) in
  let middle := AttrRef AttrFloat32 (mk_Ref outer "alpha") in
  let inner := AttrRef AttrFloat32 (mk_Ref middle "alpha") in
  new AttrFloat32 (Literal (PyFloat two_and_a_half)) = Ok outer /\
  new AttrFloat32 (Reference (mk_Ref outer "alpha")) = Ok middle /\
  new AttrFloat32 (Reference (mk_Ref middle "alpha")) = Ok inner /\
  value inner = PyFloat two_and_a_half /\
  depth inner = 2%nat /\
  _to_onnx from_array float_of_text outer "alpha" =
    Ok (mkAttributeProto "alpha" EmptyString FLOAT
          (S754_finite false 10485760 (-22)) 0 EmptyString [] [] [] []) /\
  _to_onnx from_array float_of_text inner "alpha" =
    Ok (mkAttributeProto "alpha" "alpha" FLOAT (S754_zero false) 0
          EmptyString [] [] [] []).
Proof. repeat split. Qed.

End ReferenceExamples.

(** ** Propagated values *)

Section ValuePropFacts.

Import ValueProp.

(** Induction on a propagated value and the values nested in it. *)
Lemma PropValue_nested_ind (P : PropValue -> Prop) :
  (forall typ a, P (mkPropValue typ (VArray a))) ->
  (forall typ l, Forall P l -> P (mkPropValue typ (VList l))) ->
  (forall typ p, P p -> P (mkPropValue typ (VSome p))) ->
  (forall typ, P (mkPropValue typ VNone)) ->
  forall v, P v.
Proof.
  intros Harr Hlist Hsome Hnone. fix IH 1.
  intros [typ [a | l | p | ]].
  - apply Harr.
  - apply Hlist. induction l as [|x l IHl]; constructor; [apply IH | exact IHl].
  - apply Hsome, IH.
  - apply Hnone.
Qed.

Lemma fst_bindM {A B : Type} (m : M A) (k : A -> M B) :
  fst (bindM m k) =
  match fst m with
  | Ok a => fst (k a)
  | Raise e => Raise e
  end.
Proof.
  destruct m as [[a|e] ws]; simpl; [|reflexivity].
  now destruct (k a).
Qed.

(** [check] never raises. *)
Lemma check_total (v : PropValue) : fst (check v) = Ok (passes v).
Proof.
  unfold passes.
  destruct v as [typ payload]. unfold check. cbn [type value].
  destruct typ as [|k sh|e|e]; [reflexivity| | |].
  - destruct payload as [a| | |]; try reflexivity.
    destruct (negb (Shape.le (array_shape a) sh)); [reflexivity|].
    now destruct (_ && _).
  - now destruct payload.
  - now destruct payload.
Qed.

(** The warnings of [check]: one when the declared type is unknown, none
    otherwise. *)
Lemma check_warnings (v : PropValue) :
  snd (check v) =
  match type v with
  | TypeUnknown => [InferenceWarning]
  | _ => []
  end.
Proof.
  destruct v as [typ payload]. unfold check. cbn [type value].
  destruct typ as [|k sh|e|e]; [reflexivity| | |].
  - destruct payload as [a| | |]; try reflexivity.
    destruct (negb (Shape.le (array_shape a) sh)); [reflexivity|].
    now destruct (_ && _).
  - now destruct payload.
  - now destruct payload.
Qed.

Lemma fst_cls (strict : bool) (typ : Type_) (payload : PropValueType) :
  fst (cls strict typ payload) =
  if strict && negb (passes (mkPropValue typ (normalize payload)))
  then Raise ValueError
  else Ok (mkPropValue typ (normalize payload)).
Proof.
  unfold cls. destruct strict; [|reflexivity].
  rewrite fst_bindM, check_total. cbn [andb].
  now destruct (passes _).
Qed.

Lemma astype_same (a : ndarray) : astype a (dtype a) = a.
Proof. now destruct a. Qed.

(** An array whose dtype is not a platform alias is left as it is. *)
Lemma normalize_canonical (a : ndarray) :
  (match dtype a with dt_alias _ => false | _ => true end) = true ->
  normalize (VArray a) = VArray a.
Proof.
  intro H. unfold normalize.
  destruct (dtype a) as [k| |al] eqn:E; cbn [is_number dtype_name].
  - destruct (is_number_kind k); [|reflexivity].
    now rewrite <- E, astype_same.
  - reflexivity.
  - discriminate.
Qed.

Lemma normalize_idempotent (payload : PropValueType) :
  normalize (normalize payload) = normalize payload.
Proof.
  destruct payload as [[d sh dat]| | |]; try reflexivity.
  destruct d as [k | | [|]]; try reflexivity.
  destruct k; reflexivity.
Qed.

End ValuePropFacts.

Section Validation.

Import ValueProp.

Lemma forallb_Forall_true {A : Type} (f : A -> bool) (l : list A) :
  forallb f l = true <-> Forall (fun x => f x = true) l.
Proof.
  induction l as [|x l IH]; simpl.
  - split; [constructor | reflexivity].
  - rewrite andb_true_iff, IH. split.
    + intros [Hx Hl]. now constructor.
    + intro H. inversion H; subst. now split.
Qed.

(** C7, as the code has it.  [check] always answers.  It answers true
    exactly when: for a declared Tensor, the payload is an array whose shape
    is below the declared shape and whose dtype is the declared element kind,
    or the generic [object] dtype when the declared kind is text; for a
    declared Sequence, the payload is a list whose elements are declared
    with a subtype of the declared element type; for a declared Optional,
    the payload is absent or some PropValue; the unknown type accepts
    every payload. *)
Theorem check_characterization (v : PropValue) :
  (exists b, fst (check v) = Ok b) /\
  (fst (check v) = Ok true <->
   match type v with
   | Tensor k sh =>
       exists a, value v = VArray a /\
                 Shape.le (array_shape a) sh = true /\
                 (dtype a = dt k \/ (dtype a = dt_object /\ k = str_))
   | Sequence elem_type =>
       exists l, value v = VList l /\
                 Forall (fun elem => _subtype (type elem) elem_type = true) l
   | Optional _ => value v = VNone \/ exists p, value v = VSome p
   | TypeUnknown => True
   end).
Proof.
  split; [exists (passes v); apply check_total|].
  destruct v as [typ payload]. unfold check. cbn [type value].
  destruct typ as [|k sh|e|e].
  - simpl. tauto.
  - destruct payload as [a|l|p|]; cbn [ret fst];
      try (split; [discriminate | intros [a' [H _]]; discriminate]).
    destruct (Shape.le (array_shape a) sh) eqn:Hsh; cbn [negb].
    + destruct (dtype a) as [k'| |al] eqn:Hd; cbn [andb dtype_type_is].
      * cbn [ret fst]. split.
        -- intro H. injection H as Hk. apply ElemType_eqb_eq in Hk. subst.
           exists a. split; [reflexivity|]. split; [assumption|]. now left.
        -- intros [a' [Ha [_ [Hk | [Hk _]]]]]; inversion Ha; subst a';
             rewrite Hd in Hk; [|discriminate].
           inversion Hk; subst. now rewrite ElemType_eqb_refl.
      * destruct (ElemType_eqb k str_) eqn:Hk; cbn [ret fst].
        -- apply ElemType_eqb_eq in Hk. subst.
           split; [|reflexivity]. intros _. exists a.
           split; [reflexivity|]. split; [assumption|]. now right.
        -- split; [discriminate|].
           intros [a' [Ha [_ [Hk' | [_ Hk']]]]]; inversion Ha; subst a'.
           ++ rewrite Hd in Hk'. discriminate.
           ++ subst. discriminate.
      * cbn [ret fst]. split; [discriminate|].
        intros [a' [Ha [_ [Hk | [Hk _]]]]]; inversion Ha; subst a';
          rewrite Hd in Hk; discriminate.
    + cbn [ret fst]. split; [discriminate|].
      intros [a' [Ha [Hsh' _]]]. inversion Ha; subst a'. congruence.
  - destruct payload as [a|l|p|]; cbn [ret fst];
      try (split; [discriminate | intros [l' [H _]]; discriminate]).
    split.
    + intro H. injection H as Hl. exists l. split; [reflexivity|].
      now apply forallb_Forall_true.
    + intros [l' [Hl HF]]. inversion Hl; subst l'.
      apply forallb_Forall_true in HF. now rewrite HF.
  - destruct payload as [a|l|p|]; cbn [ret fst].
    + split; [discriminate | intros [H | [p' H]]; discriminate].
    + split; [discriminate | intros [H | [p' H]]; discriminate].
    + split; [eauto | reflexivity].
    + split; [auto | reflexivity].
Qed.

Lemma check_characterization_witness :
  exists l,
    value (mkPropValue (Sequence (Tensor int64 None))
             (VList [mkPropValue (Tensor int64 (Some [Shape.Constant 3]))
                       VNone])) = VList l /\
    Forall (fun elem => _subtype (type elem) (Tensor int64 None) = true) l.
Proof.
  apply (proj1 (proj2 (check_characterization
                         (mkPropValue (Sequence (Tensor int64 None))
                            (VList [mkPropValue
                                      (Tensor int64 (Some [Shape.Constant 3]))
                                      VNone]))))).
  reflexivity.
Defined.

(** C7 as stated fails: [check] does not look into nested values.  A
    Sequence whose element is declared as a Tensor and holds no array, and
    an Optional that holds such a value, are both accepted. *)
Lemma check_is_shallow_counterexample :
  let vector := Tensor int64 (Some [Shape.Constant 3]) in
  let bad := mkPropValue vector VNone in
  let s := mkPropValue (Sequence vector) (VList [bad]) in
  let o := mkPropValue (Optional vector) (VSome bad) in
  fst (check bad) = Ok false /\
  (fst (check s) = Ok true /\ check_spec (type s) (value s) = false) /\
  (fst (check o) = Ok true /\ check_spec (type o) (value o) = false).
Proof. repeat split. Qed.

(** The element test is the subtype test, not the membership test of the
    lattice: an element declared with the unknown type is not accepted in a
    Sequence of tensors, although [Type() <= Tensor(int64)] holds. *)
Example check_unknown_element :
  let elem := mkPropValue TypeUnknown VNone in
  let s := mkPropValue (Sequence (Tensor int64 None)) (VList [elem]) in
  fst (check s) = Ok false /\
  Type_le (type elem) (Tensor int64 None) = true /\
  fst (check (mkPropValue (Sequence TypeUnknown) (VList [elem]))) = Ok true.
Proof. repeat split. Qed.

End Validation.

Section Construction.

Import ValueProp.

Lemma passes_false_known (v : PropValue) :
  passes v = false -> snd (check v) = [].
Proof.
  intro H. rewrite check_warnings.
  destruct v as [[|k sh|e|e] payload]; [discriminate|reflexivity..].
Qed.

(** C8.  A payload that fails [check] makes the constructor raise when the
    strict flag is set, and is accepted without a warning when it is not.
    For the unknown type, [check] warns and answers true, and the
    constructor returns the value under either setting of the flag. *)
Theorem cls_strictness (typ : Type_) (payload : PropValueType) :
  let self := mkPropValue typ (normalize payload) in
  (fst (check self) = Ok false ->
     cls true typ payload = (Raise ValueError, []) /\
     cls false typ payload = (Ok self, [])) /\
  (typ = TypeUnknown ->
     check self = (Ok true, [InferenceWarning]) /\
     cls true typ payload = (Ok self, [InferenceWarning]) /\
     cls false typ payload = (Ok self, [])).
Proof.
  intro self. split.
  - intro Hfail. split; [|reflexivity].
    assert (Hp : passes self = false)
      by (rewrite check_total in Hfail; now injection Hfail).
    unfold cls. fold self.
    rewrite (surjective_pairing (check self)), Hfail, (passes_false_known self Hp).
    reflexivity.
  - intro Htyp. subst typ. repeat split.
Qed.

(** The example of the claim: a buffer of shape [(4,)] under the declared
    shape [(3,)]. *)
Lemma cls_strictness_witness :
  let typ := Tensor float32 (Some [Shape.Constant 3]) in
  let buffer := VArray (mk_ndarray (dt float32) [4%N]
                          [Num 1; Num 2; Num 3; Num 4]) in
  cls true typ buffer = (Raise ValueError, []) /\
  cls false typ buffer = (Ok (mkPropValue typ buffer), []).
Proof.
  apply (proj1 (cls_strictness
                  (Tensor float32 (Some [Shape.Constant 3]))
                  (VArray (mk_ndarray (dt float32) [4%N]
                             [Num 1; Num 2; Num 3; Num 4])))).
  reflexivity.
Defined.

End Construction.

Section RoundTrip.

Import ValueProp.

Lemma fst_mapMM {A B : Type} (f : A -> M B) (g : B -> A) (l : list B) :
  Forall (fun x => fst (f (g x)) = Ok x) l ->
  fst (mapMM f (map g l)) = Ok l.
Proof.
  induction 1 as [|x l Hx _ IH]; [reflexivity|].
  cbn [map mapMM]. rewrite fst_bindM, Hx, fst_bindM, IH. reflexivity.
Qed.

Lemma valid_passes (v : PropValue) : valid v = true -> passes v = true.
Proof.
  destruct v as [typ payload]. cbn [valid].
  intro H. now apply andb_true_iff in H as [H _].
Qed.

(** A valid value is left as it is by the constructor, whatever the flag. *)
Lemma fst_cls_valid (strict : bool) (typ : Type_) (payload : PropValueType) :
  valid (mkPropValue typ payload) = true ->
  fst (cls strict typ payload) = Ok (mkPropValue typ payload).
Proof.
  intro Hv. rewrite fst_cls.
  assert (Hn : normalize payload = payload).
  { destruct payload as [a| | |]; try reflexivity.
    apply normalize_canonical.
    cbn [valid] in Hv. apply andb_true_iff in Hv as [_ Hv]. exact Hv. }
  rewrite Hn, (valid_passes _ Hv). now destruct strict.
Qed.

Lemma to_ref_value_None (v : PropValue) :
  to_ref_value v = RNone -> value v = VNone.
Proof. destruct v as [typ [a|l|p|]]; simpl; intro H; now try discriminate. Qed.

Lemma unwrap_singleton_Sequence e value :
  unwrap_singleton (Sequence e) value = value.
Proof. reflexivity. Qed.

Lemma unwrap_singleton_unit typ x :
  is_Sequence typ = false -> unwrap_singleton typ (RList [x]) = x.
Proof. unfold unwrap_singleton. now intros ->. Qed.

Lemma unwrap_singleton_other typ value :
  (match value with RList _ => false | _ => true end) = true ->
  unwrap_singleton typ value = value.
Proof.
  unfold unwrap_singleton. destruct (negb (is_Sequence typ)); [|reflexivity].
  destruct value; try reflexivity. discriminate.
Qed.

(** The round trip through the reference backend. *)
Lemma from_ref_value_to_ref_value (strict : bool) (v : PropValue) :
  valid v = true ->
  fst (from_ref_value strict (type v) (to_ref_value v)) = Ok v.
Proof.
  induction v as [typ a | typ l IH | typ p IH | typ] using PropValue_nested_ind;
    intro Hv; pose proof (valid_passes _ Hv) as Hp; cbn [type to_ref_value].
  - (* an array *)
    destruct typ as [|k sh|e|e]; try discriminate Hp;
      cbn [from_ref_value]; rewrite unwrap_singleton_other by reflexivity;
      cbn [np_array]; now apply fst_cls_valid.
  - (* a list *)
    destruct typ as [|k sh|e|e]; try discriminate Hp;
      try (cbn [valid] in Hv; apply andb_true_iff in Hv as [_ Hv]; discriminate Hv).
    cbn [from_ref_value]. rewrite unwrap_singleton_Sequence.
    rewrite fst_bindM.
    assert (Hl : fst (mapMM (from_ref_value strict e) (map to_ref_value l)) = Ok l).
    { apply fst_mapMM.
      pose proof Hv as Hv'. cbn [valid] in Hv'.
      apply andb_true_iff in Hv' as [_ Hall].
      apply forallb_Forall_true in Hall.
      clear Hv Hp. induction IH as [|x l Hx _ IHl]; constructor.
      - inversion Hall as [|? ? Hhead _]; subst.
        apply andb_true_iff in Hhead as [Hty Hvx].
        apply Type_eqb_eq in Hty. rewrite <- Hty. now apply Hx.
      - apply IHl. now inversion Hall. }
    rewrite Hl. now apply fst_cls_valid.
  - (* a present optional *)
    destruct typ as [|k sh|e|e];
      try (cbn [valid] in Hv; apply andb_true_iff in Hv as [_ Hv]; discriminate Hv).
    pose proof Hv as Hv'. cbn [valid] in Hv'.
    apply andb_true_iff in Hv' as [_ Hv'].
    apply andb_true_iff in Hv' as [Hv' Hsome].
    apply andb_true_iff in Hv' as [Hty Hvp].
    apply Type_eqb_eq in Hty.
    cbn [from_ref_value]. rewrite unwrap_singleton_unit by reflexivity.
    specialize (IH Hvp). rewrite Hty in IH.
    destruct (to_ref_value p) eqn:Hr.
    + apply to_ref_value_None in Hr. rewrite Hr in Hsome. discriminate.
    + rewrite fst_bindM, IH. now apply fst_cls_valid.
    + rewrite fst_bindM, IH. now apply fst_cls_valid.
    + rewrite fst_bindM, IH. now apply fst_cls_valid.
  - (* an absent optional *)
    destruct typ as [|k sh|e|e]; try discriminate Hp;
      cbn [from_ref_value]; rewrite unwrap_singleton_other by reflexivity;
      now apply fst_cls_valid.
Qed.

(** Where no present Optional occurs, the two conversions agree. *)
Lemma to_ort_value_some_free (v : PropValue) :
  some_free v = true -> to_ort_value v = to_ref_value v.
Proof. destruct v as [typ [a|l|p|]]; simpl; intro H; now try discriminate. Qed.

Lemma from_ort_value_to_ref_value (strict : bool) (v : PropValue) :
  valid v = true -> some_free v = true -> no_object v = true ->
  fst (from_ort_value strict (type v) (to_ref_value v)) = Ok v.
Proof.
  induction v as [typ a | typ l IH | typ p IH | typ] using PropValue_nested_ind;
    intros Hv Hs Ho; pose proof (valid_passes _ Hv) as Hp;
    cbn [type to_ref_value].
  - (* an array *)
    cbn [no_object] in Ho.
    destruct typ as [|k sh|e|e]; try discriminate Hp;
      cbn [from_ort_value]; destruct (dtype a); try discriminate Ho;
      now apply fst_cls_valid.
  - (* a list *)
    destruct typ as [|k sh|e|e]; try discriminate Hp;
      try (cbn [valid] in Hv; apply andb_true_iff in Hv as [_ Hv]; discriminate Hv).
    cbn [from_ort_value]. rewrite fst_bindM.
    assert (Hl : fst (mapMM (from_ort_value strict e) (map to_ref_value l)) = Ok l).
    { apply fst_mapMM.
      pose proof Hv as Hv'. cbn [valid] in Hv'.
      apply andb_true_iff in Hv' as [_ Hall].
      apply forallb_Forall_true in Hall.
      cbn [some_free] in Hs. apply forallb_Forall_true in Hs.
      cbn [no_object] in Ho. apply forallb_Forall_true in Ho.
      clear Hv Hp. induction IH as [|x l Hx _ IHl]; constructor.
      - inversion Hall as [|? ? Hhead _]; subst.
        inversion Hs as [|? ? Hsx _]; subst.
        inversion Ho as [|? ? Hox _]; subst.
        apply andb_true_iff in Hhead as [Hty Hvx].
        apply Type_eqb_eq in Hty. rewrite <- Hty. now apply Hx.
      - inversion Hall; inversion Hs; inversion Ho; subst. now apply IHl. }
    rewrite Hl. now apply fst_cls_valid.
  - discriminate Hs.
  - (* an absent optional *)
    destruct typ as [|k sh|e|e]; try discriminate Hp;
      cbn [from_ort_value]; now apply fst_cls_valid.
Qed.

(** The round trip through the accelerated backend. *)
Lemma from_ort_value_to_ort_value (strict : bool) (v : PropValue) :
  valid v = true -> some_at_top_only v = true -> no_object v = true ->
  fst (from_ort_value strict (type v) (to_ort_value v)) = Ok v.
Proof.
  intros Hv Hs Ho.
  destruct v as [typ payload].
  destruct payload as [a|l|p|];
    try (rewrite to_ort_value_some_free by exact Hs;
         now apply from_ort_value_to_ref_value).
  unfold some_at_top_only in Hs. cbn [value] in Hs.
  cbn [no_object] in Ho.
  destruct typ as [|k sh|e|e];
    try (cbn [valid] in Hv; apply andb_true_iff in Hv as [_ Hv]; discriminate Hv).
  pose proof Hv as Hv'. cbn [valid] in Hv'.
  apply andb_true_iff in Hv' as [_ Hv'].
  apply andb_true_iff in Hv' as [Hv' Hsome].
  apply andb_true_iff in Hv' as [Hty Hvp].
  apply Type_eqb_eq in Hty.
  pose proof (from_ort_value_to_ref_value strict p Hvp Hs Ho) as Hrt.
  rewrite Hty in Hrt.
  unfold to_ort_value. cbn [value type from_ort_value].
  destruct (to_ref_value p) eqn:Hr.
  - apply to_ref_value_None in Hr. rewrite Hr in Hsome. discriminate.
  - rewrite fst_bindM, Hrt. now apply fst_cls_valid.
  - rewrite fst_bindM, Hrt. now apply fst_cls_valid.
  - rewrite fst_bindM, Hrt. now apply fst_cls_valid.
Qed.

(** C1, as the code has it.  A value that is valid at every level is
    returned by the round trip through the reference backend; it is
    returned by the round trip through the accelerated backend when, in
    addition, none of its arrays has the generic [object] dtype and no
    present Optional occurs below its own payload. *)
Theorem backend_round_trip (strict : bool) (v : PropValue) :
  valid v = true ->
  fst (from_ref_value strict (type v) (to_ref_value v)) = Ok v /\
  (no_object v = true -> some_at_top_only v = true ->
   fst (from_ort_value strict (type v) (to_ort_value v)) = Ok v).
Proof.
  intro Hv. split.
  - now apply from_ref_value_to_ref_value.
  - intros Ho Hs. now apply from_ort_value_to_ort_value.
Qed.

(** Section 8 of the spec: an Optional that holds the scalar [1.0]. *)
Lemma backend_round_trip_witness :
  let scalar := Tensor float32 (Some []) in
  let one := mkPropValue scalar (VArray (mk_ndarray (dt float32) [] [Num 1])) in
  let v := mkPropValue (Optional scalar) (VSome one) in
  fst (from_ref_value true (type v) (to_ref_value v)) = Ok v /\
  fst (from_ort_value true (type v) (to_ort_value v)) = Ok v.
Proof.
  intros scalar one v.
  destruct (backend_round_trip true v eq_refl) as [Href Hort].
  split; [exact Href | exact (Hort eq_refl eq_refl)].
Defined.

(** C1 as stated fails: a present Optional that holds an absent Optional
    passes [check], also at every level, and both backends bring back an
    absent Optional. *)
Lemma round_trip_counterexample :
  let scalar := Tensor float32 (Some []) in
  let nothing := mkPropValue (Optional scalar) VNone in
  let v := mkPropValue (Optional (Optional scalar)) (VSome nothing) in
  fst (check v) = Ok true /\
  fst (check nothing) = Ok true /\
  check_spec (type v) (value v) = true /\
  fst (from_ref_value false (type v) (to_ref_value v))
    = Ok (mkPropValue (Optional (Optional scalar)) VNone) /\
  fst (from_ref_value false (type v) (to_ref_value v)) <> Ok v /\
  fst (from_ort_value false (type v) (to_ort_value v)) <> Ok v.
Proof. repeat split; discriminate. Qed.

End RoundTrip.

Section OptionalConversions.

Import ValueProp.

(** What the two conversions do with an Optional: the reference backend
    wraps the converted value in a one-element list; the accelerated
    backend returns the nested value as [to_ref_value] converts it; an
    absent value stays absent. *)
Lemma optional_conversions (typ : Type_) (p : PropValue) :
  to_ref_value (mkPropValue (Optional typ) (VSome p)) = RList [to_ref_value p] /\
  to_ort_value (mkPropValue (Optional typ) (VSome p)) = to_ref_value p /\
  to_ref_value (mkPropValue (Optional typ) VNone) = RNone /\
  to_ort_value (mkPropValue (Optional typ) VNone) = RNone.
Proof. repeat split. Qed.

(** C9 at a present Optional that holds a present Optional.  The
    accelerated conversion of the outer value is not the accelerated
    conversion of the value it holds: the nested value comes out in the
    wrapping of the reference backend, and [from_ort_value] raises on it;
    it returns the value on the conversion that follows the accelerated
    contract at every level. *)
Theorem to_ort_value_mixes_backends :
  let scalar := Tensor float32 (Some []) in
  let one := mk_ndarray (dt float32) [] [Num 1] in
  let x := mkPropValue scalar (VArray one) in
  let inner := mkPropValue (Optional scalar) (VSome x) in
  let v := mkPropValue (Optional (Optional scalar)) (VSome inner) in
  valid v = true /\
  to_ref_value v = RList [RList [RArray one]] /\
  to_ort_value inner = RArray one /\
  to_ort_value v = RList [RArray one] /\
  to_ort_value v <> to_ort_value inner /\
  to_ort_value_nested v = RArray one /\
  fst (from_ort_value false (type v) (to_ort_value v)) = Raise TypeError /\
  fst (from_ort_value false (type v) (to_ort_value_nested v)) = Ok v.
Proof. repeat split; discriminate. Qed.

(** The same in a Sequence of Optionals: the element comes out wrapped. *)
Example to_ort_value_sequence_of_optionals :
  let scalar := Tensor float32 (Some []) in
  let one := mk_ndarray (dt float32) [] [Num 1] in
  let x := mkPropValue scalar (VArray one) in
  let elem := mkPropValue (Optional scalar) (VSome x) in
  let v := mkPropValue (Sequence (Optional scalar)) (VList [elem]) in
  valid v = true /\
  to_ort_value v = RList [RList [RArray one]] /\
  to_ort_value_nested v = RList [RArray one] /\
  fst (from_ort_value false (type v) (to_ort_value v)) = Raise TypeError /\
  fst (from_ort_value false (type v) (to_ort_value_nested v)) = Ok v.
Proof. repeat split. Qed.

End OptionalConversions.


(** ** More on the type lattice *)

Section JoinFacts.

Lemma dim_eqb_sym (x y : Shape.Dim) : Shape.dim_eqb x y = Shape.dim_eqb y x.
Proof.
  destruct (Shape.dim_eqb x y) eqn:E.
  - apply dim_eqb_eq in E. subst. symmetry. now apply dim_eqb_eq.
  - destruct (Shape.dim_eqb y x) eqn:E'; [|reflexivity].
    apply dim_eqb_eq in E'. subst.
    assert (Shape.dim_eqb x x = true) by now apply dim_eqb_eq. congruence.
Qed.

Lemma dim_join_comm (x y : Shape.Dim) : Shape.dim_join x y = Shape.dim_join y x.
Proof.
  unfold Shape.dim_join. rewrite (dim_eqb_sym y x).
  destruct (Shape.dim_eqb x y) eqn:E; [|reflexivity].
  now apply dim_eqb_eq in E.
Qed.

Lemma dims_join_comm (xs ys : list Shape.Dim) :
  Shape.dims_join xs ys = Shape.dims_join ys xs.
Proof.
  revert ys. induction xs as [|x xs IH]; intros [|y ys]; simpl; try reflexivity.
  now rewrite dim_join_comm, IH.
Qed.

Lemma Shape_join_comm (a b : Shape.t) : Shape.join a b = Shape.join b a.
Proof.
  destruct a as [xs|], b as [ys|]; simpl; try reflexivity.
  rewrite (Nat.eqb_sym (List.length ys)), dims_join_comm. reflexivity.
Qed.

Lemma dim_le_join (x y : Shape.Dim) : Shape.dim_le x (Shape.dim_join x y) = true.
Proof.
  unfold Shape.dim_join. destruct (Shape.dim_eqb x y); [apply dim_le_refl|reflexivity].
Qed.

Lemma dims_le_join (xs ys : list Shape.Dim) :
  List.length xs = List.length ys ->
  Shape.dims_le xs (Shape.dims_join xs ys) = true.
Proof.
  revert ys. induction xs as [|x xs IH]; intros [|y ys] H; simpl in *;
    try discriminate; [reflexivity|].
  rewrite dim_le_join, IH; [reflexivity|]. now injection H.
Qed.

Lemma Shape_le_join (a b : Shape.t) : Shape.le a (Shape.join a b) = true.
Proof.
  destruct a as [xs|], b as [ys|]; simpl; try reflexivity.
  destruct (Nat.eqb (List.length xs) (List.length ys)) eqn:E; [|reflexivity].
  apply Nat.eqb_eq in E. now apply dims_le_join.
Qed.

Lemma ElemType_eqb_sym (a b : ElemType) : ElemType_eqb a b = ElemType_eqb b a.
Proof. destruct a, b; reflexivity. Qed.

Lemma Type_le_Unknown_r (s : Type_) : Type_le s TypeUnknown = true.
Proof. destruct s; reflexivity. Qed.

(** The membership test is reflexive. *)
Lemma Type_le_refl (t : Type_) : Type_le t t = true.
Proof.
  destruct t as [|k sh|a|a]; cbn [Type_le]; rewrite ?Type_eqb_refl, ?orb_true_r;
    reflexivity.
Qed.

Lemma Type_or_sym (s t : Type_) : Type_or s t = Type_or t s.
Proof.
  revert t. induction s as [|k1 sh1|a IH|a IH]; intros [|k2 sh2|b|b];
    simpl; try reflexivity.
  - rewrite (ElemType_eqb_sym k2 k1).
    destruct (ElemType_eqb k1 k2) eqn:E; [|reflexivity].
    apply ElemType_eqb_eq in E. subst. simpl.
    unfold Tensor_init, Shape.to_simple, Shape.from_simple.
    now rewrite Shape_join_comm.
  - now rewrite IH.
  - now rewrite IH.
Qed.

Lemma Type_le_or_l (a b : Type_) : Type_le a (Type_or a b) = true.
Proof.
  revert b. induction a as [|k1 sh1|a IH|a IH]; intros [|k2 sh2|b|b];
    cbn [Type_or]; try apply Type_le_Unknown_r; try reflexivity.
  - destruct (ElemType_eqb k1 k2); cbn [negb]; [|reflexivity].
    unfold Tensor_init, Shape.to_simple, Shape.from_simple. cbn [Type_le].
    destruct (_ || _); [reflexivity|].
    unfold issubclass. now rewrite ElemType_eqb_refl, Shape_le_join.
  - cbn [Type_le]. destruct (_ || _); [reflexivity | apply IH].
  - cbn [Type_le]. destruct (_ || _); [reflexivity | apply IH].
Qed.

(** X1.  The join is commutative, and the unknown type absorbs it. *)
Theorem Type_or_comm (s t : Type_) :
  Type_or s t = Type_or t s /\
  Type_or TypeUnknown t = TypeUnknown /\
  Type_or s TypeUnknown = TypeUnknown.
Proof.
  split; [apply Type_or_sym|split].
  - destruct t; reflexivity.
  - destruct s; reflexivity.
Qed.

(** X2.  The join is an upper bound of its arguments for the membership
    test. *)
Theorem Type_or_upper_bound (s t : Type_) :
  Type_le s (Type_or s t) = true /\ Type_le t (Type_or s t) = true.
Proof.
  split; [apply Type_le_or_l|].
  rewrite Type_or_sym. apply Type_le_or_l.
Qed.

End JoinFacts.

Section TypeMatching.

(** X3.  [type_match] is symmetric; a type that is not given and the
    unknown type match everything; every type matches itself and its join
    with any other type. *)
Theorem type_match_facts (a b : option Type_) (s t : Type_) :
  type_match a b = type_match b a /\
  type_match None b = true /\
  type_match (Some TypeUnknown) b = true /\
  type_match (Some s) (Some s) = true /\
  type_match (Some s) (Some (Type_or s t)) = true.
Proof.
  repeat split.
  - destruct a, b; simpl; try reflexivity. apply orb_comm.
  - destruct b; reflexivity.
  - simpl. now rewrite Type_le_refl.
  - simpl. now rewrite Type_le_or_l.
Qed.

End TypeMatching.

Section TypeDescriptors.

Variable dtype_to_tensor_type : ElemType -> Z.
Variable tensor_type_to_dtype : Z -> result ElemType.

Let to_onnx := Type_to_onnx dtype_to_tensor_type.
Let from_onnx := Type_from_onnx tensor_type_to_dtype.

Lemma mapM_dim_to_onnx_Ok (dims : list Shape.Dim) :
  forallb dim_in_range dims = true -> mapM dim_to_onnx dims = Ok dims.
Proof.
  induction dims as [|d dims IH]; cbn [forallb mapM]; intro H; [reflexivity|].
  apply andb_true_iff in H as [Hd Hrest].
  unfold dim_to_onnx at 1. rewrite Hd. cbn [bind]. now rewrite (IH Hrest).
Qed.

Lemma mapM_dim_to_onnx_Raise (dims : list Shape.Dim) :
  forallb dim_in_range dims = false -> mapM dim_to_onnx dims = Raise ValueError.
Proof.
  induction dims as [|d dims IH]; cbn [forallb mapM]; intro H; [discriminate|].
  unfold dim_to_onnx at 1. destruct (dim_in_range d); cbn [andb bind] in *.
  - now rewrite (IH H).
  - reflexivity.
Qed.

Lemma mapM_dim_to_onnx_inv (dims ds : list Shape.Dim) :
  mapM dim_to_onnx dims = Ok ds -> ds = dims.
Proof.
  destruct (forallb dim_in_range dims) eqn:H.
  - rewrite (mapM_dim_to_onnx_Ok dims H). now intros [= <-].
  - rewrite (mapM_dim_to_onnx_Raise dims H). discriminate.
Qed.

(** X4.  A type has a descriptor exactly when the unknown type does not
    occur in it, the code of its element kind is a 32-bit integer and each
    of its concrete axes is a 64-bit integer.  A type in which the unknown
    type occurs raises [TypeError]; a code or an axis out of range raises
    [ValueError]. *)
Theorem Type_to_onnx_defined (t : Type_) :
  (has_unknown t = true -> to_onnx t = Raise TypeError) /\
  (has_unknown t = false -> encodable dtype_to_tensor_type t = false ->
   to_onnx t = Raise ValueError) /\
  (has_unknown t = false -> encodable dtype_to_tensor_type t = true ->
   exists p, to_onnx t = Ok p).
Proof.
  unfold to_onnx.
  induction t as [|k sh|a [IHu [IHr IHok]]|a [IHu [IHr IHok]]];
    cbn [has_unknown encodable Type_to_onnx].
  - repeat split; intros; try discriminate; reflexivity.
  - split; [discriminate|].
    unfold make_tensor_type_proto, int32_field.
    destruct (int32_in_range (dtype_to_tensor_type k)); cbn [andb bind].
    + destruct (Shape.to_simple sh) as [dims|].
      * split; intros _ H.
        -- now rewrite (mapM_dim_to_onnx_Raise dims H).
        -- rewrite (mapM_dim_to_onnx_Ok dims H). cbn [bind]. eauto.
      * split; intros _ H; [discriminate | eauto].
    + split; intros _ H; [reflexivity | discriminate].
  - split; [|split].
    + intro H. now rewrite (IHu H).
    + intros H1 H2. now rewrite (IHr H1 H2).
    + intros H1 H2. destruct (IHok H1 H2) as [p Hp]. rewrite Hp. cbn [bind]. eauto.
  - split; [|split].
    + intro H. now rewrite (IHu H).
    + intros H1 H2. now rewrite (IHr H1 H2).
    + intros H1 H2. destruct (IHok H1 H2) as [p Hp]. rewrite Hp. cbn [bind]. eauto.
Qed.

(** X5.  When the table of codes is decoded by the table of element kinds,
    reading back the descriptor of a type returns the type. *)
Theorem Type_from_onnx_to_onnx (t : Type_) (p : TypeProto) :
  (forall k, tensor_type_to_dtype (dtype_to_tensor_type k) = Ok k) ->
  to_onnx t = Ok p ->
  from_onnx p = Ok t.
Proof.
  unfold to_onnx, from_onnx. intro Htable. revert p.
  induction t as [|k sh|a IH|a IH]; simpl; intros p Hp.
  - discriminate.
  - unfold make_tensor_type_proto, int32_field in Hp.
    destruct (int32_in_range (dtype_to_tensor_type k)); [|discriminate].
    cbn [bind] in Hp. unfold Shape.to_simple in Hp.
    destruct sh as [dims|].
    + destruct (mapM dim_to_onnx dims) as [ds|e] eqn:Hds; [|discriminate].
      apply mapM_dim_to_onnx_inv in Hds. subst ds.
      injection Hp as <-. simpl. rewrite Htable. reflexivity.
    + injection Hp as <-. simpl. rewrite Htable. reflexivity.
  - destruct (Type_to_onnx dtype_to_tensor_type a) as [q|e]; [|discriminate].
    injection Hp as <-. simpl. now rewrite (IH q eq_refl).
  - destruct (Type_to_onnx dtype_to_tensor_type a) as [q|e]; [|discriminate].
    injection Hp as <-. simpl. now rewrite (IH q eq_refl).
Qed.

End TypeDescriptors.

Lemma data_type_code_decoded (k : ElemType) :
  data_type_of_code (data_type_code k) = Ok k.
Proof. destruct k; reflexivity. Qed.

Lemma Type_to_onnx_defined_witness :
  Type_to_onnx data_type_code (Sequence TypeUnknown) = Raise TypeError /\
  Type_to_onnx data_type_code
    (Tensor_init int64 (Some [Shape.Constant (2 ^ 63)])) = Raise ValueError /\
  exists p,
    Type_to_onnx data_type_code
      (Optional (Tensor_init int64 (Some [Shape.Constant (2 ^ 63 - 1)]))) = Ok p.
Proof.
  split; [|split].
  - apply (proj1 (Type_to_onnx_defined data_type_code (Sequence TypeUnknown))).
    reflexivity.
  - apply (proj1 (proj2 (Type_to_onnx_defined data_type_code
                           (Tensor_init int64 (Some [Shape.Constant (2 ^ 63)])))));
      reflexivity.
  - apply (proj2 (proj2 (Type_to_onnx_defined data_type_code
                           (Optional (Tensor_init int64
                                        (Some [Shape.Constant (2 ^ 63 - 1)]))))));
      reflexivity.
Defined.

Lemma Type_from_onnx_to_onnx_witness :
  Type_from_onnx data_type_of_code
    (optional_type
       (sequence_type
          (tensor_type 7 (Some [Shape.Symbolic "N"; Shape.Constant 3; Shape.Unknown]))))
  = Ok (Optional
          (Sequence
             (Tensor_init int64
                (Some [Shape.Symbolic "N"; Shape.Constant 3; Shape.Unknown])))).
Proof.
  apply (Type_from_onnx_to_onnx data_type_code data_type_of_code
           (Optional
              (Sequence
                 (Tensor_init int64
                    (Some [Shape.Symbolic "N"; Shape.Constant 3; Shape.Unknown]))))).
  - intro k. destruct k; reflexivity.
  - reflexivity.
Defined.

(** ** More on propagated values *)

Section ConvertedValues.

Import ValueProp.

Lemma fst_bindM_Ok {A B : Type} (m : M A) (k : A -> M B) (b : B) :
  fst (bindM m k) = Ok b -> exists a, fst m = Ok a /\ fst (k a) = Ok b.
Proof.
  rewrite fst_bindM. destruct (fst m) as [a|e]; [eauto|discriminate].
Qed.

Lemma fst_mapMM_Ok {A B : Type} (f : A -> M B) (xs : list A) (ys : list B) :
  fst (mapMM f xs) = Ok ys -> Forall (fun y => exists x, fst (f x) = Ok y) ys.
Proof.
  revert ys. induction xs as [|x xs IH]; intros ys H.
  - injection H as <-. constructor.
  - cbn [mapMM] in H. apply fst_bindM_Ok in H as [y [Hy H]].
    apply fst_bindM_Ok in H as [ys' [Hys H]]. injection H as <-.
    constructor; [eauto | now apply IH].
Qed.

Lemma normalize_array (a : ndarray) :
  exists a', normalize (VArray a) = VArray a' /\
             (match dtype a' with dt_alias _ => false | _ => true end) = true.
Proof.
  destruct a as [d sh dat]. destruct d as [k| |[|]].
  - exists (mk_ndarray (dt k) sh dat). split; [|reflexivity].
    destruct k; reflexivity.
  - eexists. split; reflexivity.
  - eexists. split; reflexivity.
  - eexists. split; reflexivity.
Qed.

(** What the constructor returns when it returns. *)
Lemma cls_Ok (strict : bool) (typ : Type_) (payload : PropValueType) (v : PropValue) :
  fst (cls strict typ payload) = Ok v ->
  v = mkPropValue typ (normalize payload) /\ (strict = true -> passes v = true).
Proof.
  rewrite fst_cls.
  destruct strict; cbn [andb].
  - destruct (passes (mkPropValue typ (normalize payload))) eqn:Hp; cbn [negb];
      intro H; [|discriminate].
    injection H as <-. auto.
  - intro H. injection H as <-. split; [reflexivity|discriminate].
Qed.

Lemma built_array strict typ raw v :
  fst (cls strict typ (VArray raw)) = Ok v -> built strict typ v.
Proof.
  intro H. apply cls_Ok in H as [-> Hp].
  destruct (normalize_array raw) as [a' [Hn Ha]]. rewrite Hn in *.
  repeat split; [exact Ha|].
  intro Hs. cbn [checked]. now rewrite (Hp Hs).
Qed.

Lemma built_none strict typ v :
  fst (cls strict typ VNone) = Ok v -> built strict typ v.
Proof.
  intro H. apply cls_Ok in H as [-> Hp]. cbn [normalize] in *.
  repeat split. intro Hs. cbn [checked]. now rewrite (Hp Hs).
Qed.

Lemma built_some strict e p v :
  built strict e p ->
  fst (cls strict (Optional e) (VSome p)) = Ok v -> built strict (Optional e) v.
Proof.
  intros [Hty [Hsh Hch]] H. apply cls_Ok in H as [-> Hp]. cbn [normalize] in *.
  repeat split.
  - cbn [shaped]. rewrite Hty, Type_eqb_refl, Hsh. reflexivity.
  - intro Hs. cbn [checked]. now rewrite (Hp Hs), (Hch Hs).
Qed.

Lemma built_list strict e ps v :
  Forall (built strict e) ps ->
  fst (cls strict (Sequence e) (VList ps)) = Ok v -> built strict (Sequence e) v.
Proof.
  intros Hps H. apply cls_Ok in H as [-> Hp]. cbn [normalize] in *.
  repeat split.
  - cbn [shaped]. apply forallb_Forall_true.
    eapply Forall_impl; [|exact Hps].
    intros p [Hty [Hsh _]]. now rewrite Hty, Type_eqb_refl, Hsh.
  - intro Hs. cbn [checked]. rewrite (Hp Hs). cbn [andb].
    apply forallb_Forall_true.
    eapply Forall_impl; [|exact Hps].
    intros p [_ [_ Hch]]. now apply Hch.
Qed.

Lemma from_ref_value_built (strict : bool) (typ : Type_) :
  forall raw v, fst (from_ref_value strict typ raw) = Ok v -> built strict typ v.
Proof.
  induction typ as [|k sh|e IH|e IH]; intros raw v H; cbn [from_ref_value] in H.
  - destruct (unwrap_singleton TypeUnknown raw);
      eauto using built_none, built_array; discriminate.
  - destruct (unwrap_singleton (Tensor k sh) raw);
      eauto using built_none, built_array; discriminate.
  - destruct (unwrap_singleton (Sequence e) raw) as [|a|l|x];
      eauto using built_none, built_array.
    apply fst_bindM_Ok in H as [ps [Hps H]].
    apply (built_list strict e ps); [|exact H].
    apply fst_mapMM_Ok in Hps.
    eapply Forall_impl; [|exact Hps]. intros p [x Hx]. eauto.
  - destruct (unwrap_singleton (Optional e) raw) as [|a|l|x];
      eauto using built_none;
      apply fst_bindM_Ok in H as [p [Hp H]];
      eapply built_some; eauto.
Qed.

Lemma from_ort_value_built (strict : bool) (typ : Type_) :
  forall raw v,
    fst (from_ort_value strict typ raw) = Ok v ->
    built strict typ v /\ no_object v = true.
Proof.
  induction typ as [|k sh|e IH|e IH]; intros raw v H; cbn [from_ort_value] in H.
  - destruct raw as [|a|l|x]; try discriminate.
    + split; [eauto using built_none|]. apply cls_Ok in H as [-> _]. reflexivity.
    + split; [eauto using built_array|]. apply cls_Ok in H as [-> _].
      destruct a as [[kk| |[|]] s d]; try reflexivity. destruct kk; reflexivity.
  - destruct raw as [|a|l|x]; try discriminate.
    + split; [eauto using built_none|]. apply cls_Ok in H as [-> _]. reflexivity.
    + split; [eauto using built_array|]. apply cls_Ok in H as [-> _].
      destruct a as [[kk| |[|]] s d]; try reflexivity. destruct kk; reflexivity.
  - destruct raw as [|a|l|x]; try discriminate.
    + split; [eauto using built_none|]. apply cls_Ok in H as [-> _]. reflexivity.
    + split; [eauto using built_array|]. apply cls_Ok in H as [-> _].
      destruct a as [[kk| |[|]] s d]; try reflexivity. destruct kk; reflexivity.
    + apply fst_bindM_Ok in H as [ps [Hps H]].
      apply fst_mapMM_Ok in Hps.
      assert (Hall : Forall (fun p => built strict e p /\ no_object p = true) ps).
      { eapply Forall_impl; [|exact Hps]. intros p [x Hx]. eauto. }
      split.
      * apply (built_list strict e ps); [|exact H].
        eapply Forall_impl; [|exact Hall]. now intros p [Hb _].
      * apply cls_Ok in H as [-> _]. cbn [normalize no_object].
        apply forallb_Forall_true.
        eapply Forall_impl; [|exact Hall]. now intros p [_ Ho].
  - destruct raw as [|a|l|x].
    + split; [eauto using built_none|]. apply cls_Ok in H as [-> _]. reflexivity.
    + apply fst_bindM_Ok in H as [p [Hp H]]. destruct (IH _ _ Hp) as [Hb Ho].
      split; [eapply built_some; eauto|]. apply cls_Ok in H as [-> _]. exact Ho.
    + apply fst_bindM_Ok in H as [p [Hp H]]. destruct (IH _ _ Hp) as [Hb Ho].
      split; [eapply built_some; eauto|]. apply cls_Ok in H as [-> _]. exact Ho.
    + apply fst_bindM_Ok in H as [p [Hp H]]. destruct (IH _ _ Hp) as [Hb Ho].
      split; [eapply built_some; eauto|]. apply cls_Ok in H as [-> _]. exact Ho.
Qed.

End ConvertedValues.

Section ConversionResults.

Import ValueProp.

(** X6.  A value returned by [from_ref_value] is declared with the requested
    type, holds no array of a platform alias dtype, and every nested value is
    declared with the element type of its parent; under the strict flag
    [check] accepts it and every value nested in it. *)
Theorem from_ref_value_result (strict : bool) (typ : Type_) (raw : Raw)
    (v : PropValue) :
  fst (from_ref_value strict typ raw) = Ok v ->
  type v = typ /\ shaped v = true /\ (strict = true -> checked v = true).
Proof.
  intro H.
  destruct (from_ref_value_built strict typ raw v H) as [Hty [Hsh Hch]].
  repeat split; assumption.
Qed.

Lemma from_ref_value_result_witness :
  let scalar := Tensor float32 (Some []) in
  let one := mk_ndarray (dt float32) [] [Num 1] in
  let v := mkPropValue (Sequence (Optional scalar))
             (VList
                [mkPropValue (Optional scalar) (VSome (mkPropValue scalar (VArray one)));
                 mkPropValue (Optional scalar) VNone]) in
  type v = Sequence (Optional scalar) /\ shaped v = true /\
  (true = true -> checked v = true).
Proof.
  intros scalar one.
  apply (from_ref_value_result true (Sequence (Optional scalar))
           (RList [RList [RArray one]; RNone])).
  reflexivity.
Defined.

(** X7.  A value returned by [from_ort_value] has the same three properties,
    and none of its arrays has the generic [object] dtype. *)
Theorem from_ort_value_result (strict : bool) (typ : Type_) (raw : Raw)
    (v : PropValue) :
  fst (from_ort_value strict typ raw) = Ok v ->
  (type v = typ /\ shaped v = true /\ (strict = true -> checked v = true)) /\
  no_object v = true.
Proof.
  intro H.
  destruct (from_ort_value_built strict typ raw v H) as [[Hty [Hsh Hch]] Ho].
  repeat split; assumption.
Qed.

Lemma from_ort_value_result_witness :
  let text := Tensor str_ (Some [Shape.Constant 2]) in
  let words := mk_ndarray dt_object [2%N] [Text "a"; Text "b"] in
  let v := mkPropValue (Sequence text)
             (VList [mkPropValue text (VArray (astype words (dt str_)))]) in
  (type v = Sequence text /\ shaped v = true /\ (true = true -> checked v = true)) /\
  no_object v = true.
Proof.
  intros text words.
  apply (from_ort_value_result true (Sequence text) (RList [RArray words])).
  reflexivity.
Defined.

End ConversionResults.

Section CheckAndOrder.

Import ValueProp.

Lemma dims_eqb_le (xs ys : list Shape.Dim) :
  Shape.dims_eqb xs ys = true -> Shape.dims_le xs ys = true.
Proof. intro H. apply dims_eqb_eq in H. subst. apply dims_le_refl. Qed.

Lemma Shape_eqb_le (a b : Shape.t) : Shape.eqb a b = true -> Shape.le a b = true.
Proof. intro H. apply Shape_eqb_eq in H. subst. apply Shape_le_refl. Qed.

(** X8.  An array of a sized dtype validates against a declared Tensor type
    exactly when the Tensor type of the array itself, its element kind with
    its concrete shape, is below the declared type. *)
Theorem check_array_is_membership (k k' : ElemType) (sh : Shape.t) (a : ndarray) :
  dtype a = dt k' ->
  fst (check (mkPropValue (Tensor k sh) (VArray a))) =
  Ok (Type_le (Tensor k' (array_shape a)) (Tensor k sh)).
Proof.
  intro Hd. unfold check. cbn [type value]. rewrite Hd. cbn [andb dtype_type_is].
  cbn [Type_le Type_eqb orb]. unfold issubclass.
  destruct (Shape.le (array_shape a) sh) eqn:Hle; cbn [negb ret fst].
  - rewrite andb_true_r.
    destruct (ElemType_eqb k' k); cbn [andb]; [|reflexivity].
    now destruct (Shape.eqb (array_shape a) sh).
  - rewrite andb_false_r.
    destruct (Shape.eqb (array_shape a) sh) eqn:He.
    + apply Shape_eqb_le in He. congruence.
    + now rewrite andb_false_r.
Qed.

Lemma check_array_is_membership_witness :
  fst (check (mkPropValue (Tensor int64 (Some [Shape.Symbolic "N"; Shape.Unknown]))
                (VArray (mk_ndarray (dt int64) [2%N; 3%N] []))))
  = Ok false.
Proof.
  apply (check_array_is_membership int64 int64
           (Some [Shape.Symbolic "N"; Shape.Unknown])
           (mk_ndarray (dt int64) [2%N; 3%N] [])).
  reflexivity.
Defined.

(** X9.  Building a value again from the type and the payload of a value
    the constructor returned gives that value back, and such a value holds
    no array of a platform alias dtype. *)
Theorem cls_idempotent (strict : bool) (typ : Type_) (payload : PropValueType)
    (v : PropValue) :
  fst (cls strict typ payload) = Ok v ->
  fst (cls strict (type v) (value v)) = Ok v /\
  (forall a, value v = VArray a ->
             (match dtype a with dt_alias _ => false | _ => true end) = true).
Proof.
  intro H. apply cls_Ok in H as [-> Hp]. cbn [type value]. split.
  - rewrite fst_cls, normalize_idempotent.
    destruct strict; cbn [andb]; [|reflexivity].
    now rewrite (Hp eq_refl).
  - intros a Ha. destruct payload as [a0| | |]; try discriminate.
    destruct (normalize_array a0) as [a' [Hn Hal]].
    rewrite Hn in Ha. injection Ha as <-. exact Hal.
Qed.

Lemma cls_idempotent_witness :
  let typ := Tensor uint64 (Some [Shape.Constant 2]) in
  let v := mkPropValue typ (VArray (mk_ndarray (dt uint64) [2%N] [Num 1; Num 2])) in
  fst (cls true (type v) (value v)) = Ok v.
Proof.
  intros typ v.
  apply (cls_idempotent true typ
           (VArray (mk_ndarray (dt_alias ulonglong) [2%N] [Num 1; Num 2])) v).
  reflexivity.
Defined.

End CheckAndOrder.

Section ConversionErrors.

Import ValueProp.

Lemma snd_bindM {A B : Type} (m : M A) (k : A -> M B) :
  snd (bindM m k) =
  match fst m with
  | Ok a => (snd m ++ snd (k a))%list
  | Raise _ => snd m
  end.
Proof.
  destruct m as [[a|e] ws]; simpl; [|reflexivity].
  now destruct (k a).
Qed.

(** The computation raises only exceptions of [E], and emits warnings only
    if [loud]. *)
Let tame {A : Type} (E : exn -> Prop) (loud : bool) (m : M A) : Prop :=
  (forall e, fst m = Raise e -> E e) /\ (loud = false -> snd m = []).

Lemma tame_bindM {A B : Type} E loud (m : M A) (k : A -> M B) :
  tame E loud m -> (forall a, tame E loud (k a)) -> tame E loud (bindM m k).
Proof.
  intros [Hm Hw] Hk. split.
  - intros e. rewrite fst_bindM. destruct (fst m) as [a|e'] eqn:Fm.
    + apply (Hk a).
    + intro H. injection H as <-. now apply Hm.
  - intro Hl. rewrite snd_bindM, (Hw Hl).
    destruct (fst m) as [a|e']; [|reflexivity].
    now rewrite (proj2 (Hk a) Hl).
Qed.

Lemma tame_mapMM {A B : Type} E loud (f : A -> M B) (xs : list A) :
  (forall x, tame E loud (f x)) -> tame E loud (mapMM f xs).
Proof.
  intro Hf. induction xs as [|x xs IH]; cbn [mapMM].
  - split; [discriminate|reflexivity].
  - apply tame_bindM; [apply Hf|]. intro y.
    apply tame_bindM; [apply IH|]. intro ys.
    split; [discriminate|reflexivity].
Qed.

Let allowed (strict : bool) (e : exn) : Prop :=
  e = TypeError \/ (strict = true /\ e = ValueError).

Lemma tame_cls strict typ payload :
  tame (allowed strict) strict (cls strict typ payload).
Proof.
  split.
  - intro e. rewrite fst_cls. destruct strict; cbn [andb].
    + destruct (negb _); [|discriminate].
      intro H. injection H as <-. right. auto.
    + discriminate.
  - intros ->. reflexivity.
Qed.

Lemma tame_raise_TypeError {A : Type} strict :
  tame (allowed strict) strict (@raise A TypeError).
Proof.
  split; [|reflexivity]. intros e H. injection H as <-. now left.
Qed.

Lemma from_ref_value_tame strict typ :
  forall raw, tame (allowed strict) strict (from_ref_value strict typ raw).
Proof.
  induction typ as [|k sh|e IH|e IH]; intro raw; cbn [from_ref_value].
  - destruct (unwrap_singleton TypeUnknown raw);
      auto using tame_cls, tame_raise_TypeError.
  - destruct (unwrap_singleton (Tensor k sh) raw);
      auto using tame_cls, tame_raise_TypeError.
  - destruct (unwrap_singleton (Sequence e) raw); auto using tame_cls.
    apply tame_bindM; [now apply tame_mapMM|]. intro. apply tame_cls.
  - destruct (unwrap_singleton (Optional e) raw); auto using tame_cls;
      (apply tame_bindM; [apply IH|]; intro; apply tame_cls).
Qed.

Lemma from_ort_value_tame strict typ :
  forall raw, tame (allowed strict) strict (from_ort_value strict typ raw).
Proof.
  induction typ as [|k sh|e IH|e IH]; intro raw; cbn [from_ort_value].
  - destruct raw; auto using tame_cls, tame_raise_TypeError.
  - destruct raw; auto using tame_cls, tame_raise_TypeError.
  - destruct raw; auto using tame_cls, tame_raise_TypeError.
    apply tame_bindM; [now apply tame_mapMM|]. intro. apply tame_cls.
  - destruct raw; auto using tame_cls;
      (apply tame_bindM; [apply IH|]; intro; apply tame_cls).
Qed.

(** X10.  A conversion from a backend value raises nothing but [TypeError]
    and, under the strict flag only, [ValueError]; without the strict flag
    it emits no warning. *)
Theorem conversion_errors (strict : bool) (typ : Type_) (raw : Raw) (e : exn) :
  (fst (from_ref_value strict typ raw) = Raise e \/
   fst (from_ort_value strict typ raw) = Raise e ->
   e = TypeError \/ (strict = true /\ e = ValueError)) /\
  snd (from_ref_value false typ raw) = [] /\
  snd (from_ort_value false typ raw) = [].
Proof.
  split; [|split].
  - intros [H | H].
    + exact (proj1 (from_ref_value_tame strict typ raw) e H).
    + exact (proj1 (from_ort_value_tame strict typ raw) e H).
  - exact (proj2 (from_ref_value_tame false typ raw) eq_refl).
  - exact (proj2 (from_ort_value_tame false typ raw) eq_refl).
Qed.

Lemma conversion_errors_witness :
  ValueError = TypeError \/ (true = true /\ ValueError = ValueError).
Proof.
  apply (proj1 (conversion_errors true
                  (Tensor float32 (Some [Shape.Constant 3]))
                  (RArray (mk_ndarray (dt float32) [4%N] []))
                  ValueError)).
  left. reflexivity.
Defined.

End ConversionErrors.

(** ** More on attributes *)

Section Acceptance.

Import Attributes.

Lemma bind_Ok_iff {A B : Type} (r : result A) (k : A -> result B) (b : B) :
  bind r k = Ok b <-> exists a, r = Ok a /\ k a = Ok b.
Proof.
  split; [apply bind_Ok_inv|].
  intros [a [-> H]]. exact H.
Qed.

(** What a constructor that returned has checked. *)
Lemma Attr_init_Ok cls arg a :
  Attr_init cls arg = Ok a ->
  _validate a = Ok tt /\ class_of a = cls /\
  a = match arg with
      | Literal v => AttrLit cls v
      | Reference r => AttrRef cls r
      end.
Proof.
  unfold Attr_init. intro H. apply bind_Ok_inv in H as [[] [Hv H]].
  injection H as <-. split; [exact Hv|]. now destruct arg.
Qed.

Lemma new_Ok cls arg a :
  new cls arg = Ok a -> _validate a = Ok tt /\ class_of a = cls.
Proof.
  unfold new, AttrIterable_init. intro H.
  destruct (is_iterable_class cls).
  - destruct arg as [v|r].
    + apply bind_Ok_inv in H as [items [_ H]].
      apply Attr_init_Ok in H. tauto.
    + apply Attr_init_Ok in H. tauto.
  - apply Attr_init_Ok in H. tauto.
Qed.

Lemma _validate_Ok a :
  _validate a = Ok tt ->
  match class_of a with
  | AttrGraph => value a = PyGraph
  | cls => _deduce_type (value a) = Ok (_attribute_proto_type_int cls)
  end.
Proof.
  unfold _validate.
  assert (Hgen : forall cls,
             (ty <- _deduce_type (value a) ;;
              if negb (AttributeType_eqb ty (_attribute_proto_type_int cls))
              then Raise TypeError else Ok tt) = Ok tt ->
             _deduce_type (value a) = Ok (_attribute_proto_type_int cls)).
  { intros cls H. apply bind_Ok_inv in H as [ty [Hty H]]. rewrite Hty.
    destruct ty, cls; try discriminate H; reflexivity. }
  destruct (class_of a); try apply Hgen.
  destruct (value a); try discriminate. reflexivity.
Qed.

(** The list kinds are deduced from tuples only, and from no empty one. *)
Lemma _deduce_type_list_kind (v : PyVal) (ty : AttributeType) :
  _deduce_type v = Ok ty ->
  ty = INTS \/ ty = FLOATS \/ ty = STRINGS \/ ty = TENSORS ->
  exists items, v = PyTuple items /\ items <> [].
Proof.
  intros H Hty.
  destruct v as [z|b|q|x|x|c| | |items]; cbn in H;
    try (injection H as <-; destruct Hty as [|[|[|]]]; discriminate);
    try (destruct c; injection H as <-; destruct Hty as [|[|[|]]]; discriminate);
    try discriminate.
  exists items. split; [reflexivity|]. intros ->. discriminate.
Qed.

(** X11.  An attribute that the constructor of one of the eight classes of
    [AttrClass] returned belongs to the class called, and the kind deduced
    from its dereferenced value is the kind the class declares (for a graph
    attribute: the value is a graph); the value of a list attribute is a
    non-empty tuple. *)
Theorem constructed_kind (cls : AttrClass) (arg : Arg) (a : Attr) :
  new cls arg = Ok a ->
  class_of a = cls /\
  (cls <> AttrGraph ->
   _deduce_type (value a) = Ok (_attribute_proto_type_int cls)) /\
  (cls = AttrGraph -> value a = PyGraph) /\
  (is_iterable_class cls = true ->
   exists items, value a = PyTuple items /\ items <> []).
Proof.
  intro H. apply new_Ok in H as [Hv Hc].
  apply _validate_Ok in Hv. rewrite Hc in Hv.
  split; [exact Hc|]. split; [|split].
  - intro Hg. destruct cls; try exact Hv. contradiction.
  - intros ->. exact Hv.
  - intro Hi.
    apply (_deduce_type_list_kind (value a) (_attribute_proto_type_int cls)).
    + destruct cls; try discriminate Hi; exact Hv.
    + destruct cls; try discriminate Hi; cbn; auto.
Qed.

Lemma constructed_kind_witness :
  _deduce_type
    (value (AttrRef AttrInt64s
              (mk_Ref (AttrLit AttrInt64s (PyTuple [PyInt 1; PyInt 2])) "axes")))
  = Ok INTS.
Proof.
  apply (proj1 (proj2 (constructed_kind AttrInt64s
           (Reference (mk_Ref (AttrLit AttrInt64s (PyTuple [PyInt 1; PyInt 2])) "axes"))
           (AttrRef AttrInt64s
              (mk_Ref (AttrLit AttrInt64s (PyTuple [PyInt 1; PyInt 2])) "axes"))
           eq_refl))).
  discriminate.
Defined.

End Acceptance.

Section ScalarAcceptance.

Import Attributes.

Lemma new_scalar_literal cls v :
  is_iterable_class cls = false ->
  new cls (Literal v) = (_ <- _validate (AttrLit cls v) ;; Ok (AttrLit cls v)).
Proof. unfold new. now intros ->. Qed.

Lemma _validate_scalar cls v :
  cls <> AttrGraph ->
  _validate (AttrLit cls v) =
  (ty <- _deduce_type v ;;
   if negb (AttributeType_eqb ty (_attribute_proto_type_int cls))
   then Raise TypeError else Ok tt).
Proof. intro H. destruct cls; try reflexivity. contradiction. Qed.

Lemma AttributeType_eqb_refl (ty : AttributeType) :
  AttributeType_eqb ty ty = true.
Proof. destruct ty; reflexivity. Qed.

Lemma AttributeType_eqb_neq (a b : AttributeType) :
  a <> b -> AttributeType_eqb a b = false.
Proof. destruct a, b; try reflexivity; intro H; contradiction. Qed.

(** X12.  A scalar class takes a literal when the kind deduced from it is
    the kind the class declares, raises [TypeError] when another kind is
    deduced, and lets the error of the deduction through; the graph class
    takes a graph and raises [TypeError] on anything else.  So the integer
    class takes an [int] and a [bool], the float class takes a [float] and
    rejects an [int] and a [bool], the string class takes a [str] and
    [bytes]. *)
Theorem scalar_literals_accepted :
  (forall cls v,
     is_iterable_class cls = false -> cls <> AttrGraph ->
     _deduce_type v = Ok (_attribute_proto_type_int cls) ->
     new cls (Literal v) = Ok (AttrLit cls v)) /\
  (forall cls v ty,
     is_iterable_class cls = false -> cls <> AttrGraph ->
     _deduce_type v = Ok ty -> ty <> _attribute_proto_type_int cls ->
     new cls (Literal v) = Raise TypeError) /\
  (forall cls v e,
     is_iterable_class cls = false -> cls <> AttrGraph ->
     _deduce_type v = Raise e ->
     new cls (Literal v) = Raise e) /\
  new AttrGraph (Literal PyGraph) = Ok (AttrLit AttrGraph PyGraph) /\
  (forall v, v <> PyGraph -> new AttrGraph (Literal v) = Raise TypeError) /\
  (forall z, new AttrInt64 (Literal (PyInt z)) = Ok (AttrLit AttrInt64 (PyInt z))) /\
  (forall b, new AttrInt64 (Literal (PyBool b)) = Ok (AttrLit AttrInt64 (PyBool b))) /\
  (forall x, new AttrFloat32 (Literal (PyFloat x)) =
             Ok (AttrLit AttrFloat32 (PyFloat x))) /\
  (forall x, new AttrString (Literal (PyStr x)) = Ok (AttrLit AttrString (PyStr x))) /\
  (forall x, new AttrString (Literal (PyBytes x)) =
             Ok (AttrLit AttrString (PyBytes x))) /\
  (forall z, new AttrFloat32 (Literal (PyInt z)) = Raise TypeError) /\
  (forall b, new AttrFloat32 (Literal (PyBool b)) = Raise TypeError) /\
  (forall x, new AttrInt64 (Literal (PyFloat x)) = Raise TypeError).
Proof.
  repeat match goal with |- _ /\ _ => split end; try reflexivity.
  - intros cls v Hi Hg Hd. rewrite new_scalar_literal by exact Hi.
    rewrite _validate_scalar by exact Hg. rewrite Hd. cbn [bind].
    now rewrite AttributeType_eqb_refl.
  - intros cls v ty Hi Hg Hd Hne. rewrite new_scalar_literal by exact Hi.
    rewrite _validate_scalar by exact Hg. rewrite Hd. cbn [bind].
    now rewrite (AttributeType_eqb_neq _ _ Hne).
  - intros cls v e Hi Hg Hd. rewrite new_scalar_literal by exact Hi.
    rewrite _validate_scalar by exact Hg. now rewrite Hd.
  - intros v Hv. destruct v; try reflexivity. contradiction.
Qed.

Lemma scalar_literals_accepted_witness :
  new AttrFloat32 (Literal (PyInt 3)) = Raise TypeError /\
  new AttrString (Literal (PyTuple [PyStr "a"])) = Raise TypeError /\
  new AttrInt64 (Literal PyObject) = Raise TypeError /\
  new AttrInt64 (Literal (PyTuple [])) = Raise ValueError.
Proof.
  split; [|split; [|split]].
  - apply (proj1 (proj2 scalar_literals_accepted) AttrFloat32 (PyInt 3) INT);
      [reflexivity | discriminate | reflexivity | discriminate].
  - apply (proj1 (proj2 scalar_literals_accepted) AttrString
             (PyTuple [PyStr "a"]) STRINGS);
      [reflexivity | discriminate | reflexivity | discriminate].
  - apply (proj1 (proj2 (proj2 scalar_literals_accepted)) AttrInt64 PyObject);
      [reflexivity | discriminate | reflexivity].
  - apply (proj1 (proj2 (proj2 scalar_literals_accepted)) AttrInt64 (PyTuple []));
      [reflexivity | discriminate | reflexivity].
Defined.

End ScalarAcceptance.

Section StringAttributes.

Import Attributes.

Variable from_array : PyVal -> result PyVal.
Variable float_of_text : string -> result spec_float.

#[local, warnings="-notation-for-abbreviation"]
Notation to_onnx := (_to_onnx from_array float_of_text) (only parsing).




End StringAttributes.

Section StringExamples.

Import Attributes.


End StringExamples.

Section NumericSerialization.

Import Attributes.

Variable from_array : PyVal -> result PyVal.
Variable float_of_text : string -> result spec_float.

#[local, warnings="-notation-for-abbreviation"]
Notation to_onnx := (_to_onnx from_array float_of_text) (only parsing).
#[local, warnings="-notation-for-abbreviation"]
Notation to_onnx_deref := (_to_onnx_deref from_array float_of_text) (only parsing).

Lemma mapM_as_int_item_fits (items : list PyVal) :
  forallb (fits_item AttrInt64s) items = true ->
  exists zs, mapM as_int_item items = Ok zs.
Proof.
  induction items as [|v items IH]; cbn [forallb]; intro H; [now exists []|].
  apply andb_true_iff in H as [Hv Hrest]. destruct (IH Hrest) as [zs Hzs].
  destruct v; try discriminate Hv. cbn [fits_item] in Hv.
  cbn [mapM as_int_item]. unfold int64_field. rewrite Hv, Hzs.
  eexists. reflexivity.
Qed.

Lemma mapM_float_fits (items : list PyVal) :
  forallb (fits_item AttrFloat32s) items = true ->
  exists xs, mapM (float float_of_text) items = Ok xs.
Proof.
  induction items as [|v items IH]; cbn [forallb]; intro H; [now exists []|].
  apply andb_true_iff in H as [Hv Hrest]. destruct (IH Hrest) as [xs Hxs].
  cbn [mapM]. rewrite Hxs.
  destruct v as [z|b|y|t|t|c| | |l]; try discriminate Hv; cbn [float fits_item] in *.
  - destruct (float_of_int_cases z) as [[-> _] | [_ Hinf]].
    + eexists. reflexivity.
    + rewrite Hinf in Hv. discriminate.
  - rewrite float_of_int_bool. eexists. reflexivity.
  - eexists. reflexivity.
Qed.

Lemma literal_fits_serializes cls v key :
  fits cls v = true ->
  exists p, to_onnx_deref cls v key = Ok p /\
            type p = _attribute_proto_type_int cls.
Proof.
  intro Hfit.
  destruct cls; destruct v as [z|b|y|t|t|c| | |items];
    try discriminate Hfit; cbn [fits] in Hfit.
  - (* AttrFloat32 *)
    eexists. split; reflexivity.
  - (* AttrInt64 *)
    cbn [_to_onnx_deref]. unfold make_attribute.
    cbn [_deduce_type isinstance issubclass type_of bind as_int].
    unfold int64_field. rewrite Hfit. eexists. split; reflexivity.
  - (* AttrFloat32s *)
    destruct (mapM_float_fits items Hfit) as [xs Hxs].
    cbn [_to_onnx_deref iter bind]. rewrite Hxs. cbn [bind].
    unfold make_attribute. cbn [bind]. rewrite mapM_as_float_floats.
    eexists. split; reflexivity.
  - (* AttrInt64s *)
    destruct (mapM_as_int_item_fits items Hfit) as [zs Hzs].
    cbn [_to_onnx_deref]. unfold make_attribute. cbn [bind]. rewrite Hzs.
    eexists. split; reflexivity.
Qed.

Lemma well_constructed_inv (a : Attr) :
  well_constructed a = true ->
  _validate a = Ok tt /\ well_constructed (target a) = true.
Proof.
  induction a as [cls v | cls c outer IH] using Attr_chain_ind;
    cbn [well_constructed target]; intro H.
  - split; [|exact H]. destruct (_validate (AttrLit cls v)) as [[]|]; congruence.
  - destruct (_validate (AttrRef cls (mk_Ref c outer))) as [[]|];
      [|discriminate].
    split; [reflexivity|]. now apply IH.
Qed.

Lemma _to_onnx_name (a : Attr) (key : string) (p : AttributeProto) :
  to_onnx a key = Ok p -> name p = key.
Proof.
  destruct a as [cls v | cls [c outer]].
  - intro H. now apply _to_onnx_deref_plain in H.
  - rewrite _to_onnx_ref. intro H. apply bind_Ok_inv in H as [q [_ H]].
    now injection H as <-.
Qed.

Lemma fits_numeric cls v :
  fits cls v = true ->
  cls = AttrFloat32 \/ cls = AttrInt64 \/ cls = AttrFloat32s \/ cls = AttrInt64s.
Proof. destruct cls; try (now destruct v); auto. Qed.

(** X14.  When every attribute of a reference chain was accepted by its
    constructor, the literal at its end is of a numeric class and its
    payload is one that the fields of the record take (an [int] of the
    signed 64-bit range for the integer classes and no [bool] in an integer
    list; for a float list a [float], a [bool] or an [int] within the range
    of [float]), the attribute serializes, under the given name, with the
    kind that its own class declares. *)
Theorem well_constructed_serializes (a : Attr) (key : string) :
  well_constructed a = true ->
  fits (class_of (target a)) (value a) = true ->
  exists p, to_onnx a key = Ok p /\ name p = key /\
            type p = _attribute_proto_type_int (class_of a).
Proof.
  intros Hwc Hfit.
  destruct (well_constructed_inv a Hwc) as [Hva Hwt].
  destruct (well_constructed_inv (target a) Hwt) as [Hvt _].
  destruct (target_is_literal a) as [cls0 Ht].
  rewrite Ht in Hvt, Hfit. cbn [class_of] in Hfit.
  destruct (literal_fits_serializes cls0 (value a) key Hfit) as [p [Hp Hty]].
  pose proof (_to_onnx_chain from_array float_of_text a key) as Hchain.
  rewrite Ht in Hchain. cbn [_to_onnx] in Hchain. rewrite Hp in Hchain.
  destruct Hchain as [p' [Hp' Hty']].
  exists p'. split; [exact Hp'|]. split; [now apply (_to_onnx_name a)|].
  rewrite Hty', Hty.
  (* the two classes declare the kind deduced from the one value *)
  apply _validate_Ok in Hvt. cbn [class_of value] in Hvt.
  apply _validate_Ok in Hva.
  assert (Hd0 : _deduce_type (value a) = Ok (_attribute_proto_type_int cls0)).
  { destruct (fits_numeric cls0 (value a) Hfit) as [-> | [-> | [-> | ->]]];
      exact Hvt. }
  destruct (class_of a); try congruence.
  rewrite Hva in Hd0. discriminate.
Qed.

End NumericSerialization.

Section NumericExamples.

Import Attributes.

Lemma well_constructed_serializes_witness :
  let a := AttrRef AttrFloat32s
             (mk_Ref (AttrLit AttrFloat32s
                        (PyTuple [PyInt 1;
                                  PyFloat (S754_finite false 4503599627370496 (-53))]))
                "scales") in
  well_constructed a = true /\
  (forall from_array float_of_text,
     exists p, _to_onnx from_array float_of_text a "s" = Ok p /\
               name p = "s" /\ type p = FLOATS).
Proof.
  intro a. split; [reflexivity|].
  intros from_array float_of_text.
  apply (well_constructed_serializes from_array float_of_text a "s");
    reflexivity.
Defined.

(** Validation does not look at ranges: an integer beyond the 64-bit range
    and a [bool] in an integer list are well constructed and are not
    payloads the fields take. *)
Example well_constructed_not_fitting :
  well_constructed (AttrLit AttrInt64 (PyInt (2 ^ 63))) = true /\
  fits AttrInt64 (PyInt (2 ^ 63)) = false /\
  well_constructed (AttrLit AttrInt64s (PyTuple [PyInt 1; PyBool true])) = true /\
  fits AttrInt64s (PyTuple [PyInt 1; PyBool true]) = false.
Proof. repeat split. Qed.

End NumericExamples.

Section IterableLiterals.

Import Attributes.

Variable from_array : PyVal -> result PyVal.
Variable float_of_text : string -> result spec_float.

#[local, warnings="-notation-for-abbreviation"]
Notation to_onnx := (_to_onnx from_array float_of_text) (only parsing).






(** X16.  [maybe] returns no attribute, and no error, for a value that is
    not given, and does what the constructor does for every literal; the
    list classes reject a reference given to [maybe], which their
    constructor would take. *)
Theorem maybe_and_constructor (cls : AttrClass) :
  maybe cls None = Ok None /\
  (forall v, maybe cls (Some (Literal v)) =
             (a <- new cls (Literal v) ;; Ok (Some a))) /\
  (forall r, is_iterable_class cls = true ->
             maybe cls (Some (Reference r)) = Raise TypeError) /\
  (forall r, is_iterable_class cls = false ->
             maybe cls (Some (Reference r)) =
             (a <- new cls (Reference r) ;; Ok (Some a))).
Proof.
  unfold maybe, new. repeat split.
  - now destruct (is_iterable_class cls).
  - intro v. destruct (is_iterable_class cls); [|reflexivity].
    cbn [AttrIterable_maybe AttrIterable_init].
    destruct (iter v) as [items|e]; reflexivity.
  - now intros r ->.
  - now intros r ->.
Qed.

Lemma maybe_and_constructor_witness :
  maybe AttrInt64s
    (Some (Reference (mk_Ref (AttrLit AttrInt64s (PyTuple [PyInt 1])) "axes")))
  = Raise TypeError /\
  new AttrInt64s
    (Reference (mk_Ref (AttrLit AttrInt64s (PyTuple [PyInt 1])) "axes"))
  = Ok (AttrRef AttrInt64s (mk_Ref (AttrLit AttrInt64s (PyTuple [PyInt 1])) "axes")).
Proof.
  split.
  - apply (proj1 (proj2 (proj2 (maybe_and_constructor AttrInt64s)))). reflexivity.
  - reflexivity.
Defined.

End IterableLiterals.

Section IterableExamples.

Import Attributes.

(** [e] with an acute accent: the two bytes [0xC3 0xA9] of one character. *)
#[local, warnings="-notation-for-abbreviation"]
Notation e_acute :=
  (String (ascii_of_nat 195) (String (ascii_of_nat 169) EmptyString))
  (only parsing).


End IterableExamples.

(** ** The arguments of an inlined model *)

Section Dicts.

Import Public.

Context {V : Type}.

Lemma getitem_setitem (d : dict V) (n m : string) (v : V) :
  getitem (setitem d n v) m = if String.eqb m n then Done v else getitem d m.
Proof.
  induction d as [|[k x] d IH]; cbn [setitem getitem].
  - reflexivity.
  - destruct (String.eqb n k) eqn:Enk; cbn [getitem].
    + apply String.eqb_eq in Enk. subst k.
      now destruct (String.eqb m n).
    + rewrite IH. destruct (String.eqb m k) eqn:Emk; [|reflexivity].
      apply String.eqb_eq in Emk. subst k.
      now rewrite String.eqb_sym, Enk.
Qed.

Lemma contains_setitem (d : dict V) (n m : string) (v : V) :
  contains (setitem d n v) m = String.eqb m n || contains d m.
Proof.
  unfold contains.
  induction d as [|[k x] d IH]; cbn [setitem existsb fst].
  - reflexivity.
  - destruct (String.eqb n k) eqn:Enk; cbn [existsb fst].
    + apply String.eqb_eq in Enk. subst k.
      now destruct (String.eqb m n).
    + rewrite IH. destruct (String.eqb m n), (String.eqb m k); reflexivity.
Qed.

Lemma getitem_contains (d : dict V) (m : string) :
  if contains d m then exists v, getitem d m = Done v
  else getitem d m = Fail KeyError.
Proof.
  unfold contains.
  induction d as [|[k x] d IH]; cbn [existsb getitem fst]; [reflexivity|].
  destruct (String.eqb m k); cbn [orb]; [eauto | exact IH].
Qed.

Lemma contains_keys (d : dict V) (m : string) :
  existsb (String.eqb m) (keys d) = contains d m.
Proof.
  unfold contains, keys. induction d as [|[k x] d IH]; [reflexivity|].
  cbn [map existsb fst]. now rewrite IH.
Qed.

Lemma existsb_eqb_In (m : string) (l : list string) :
  existsb (String.eqb m) l = true <-> In m l.
Proof.
  rewrite existsb_exists. split.
  - intros [x [Hx E]]. apply String.eqb_eq in E. now subst.
  - intro H. exists m. split; [exact H | apply String.eqb_refl].
Qed.

Lemma subset_spec (a b : list string) :
  subset a b = true <-> (forall n, In n a -> In n b).
Proof.
  unfold subset. rewrite forallb_forall. split; intros H n Hn.
  - now apply existsb_eqb_In, H.
  - now apply existsb_eqb_In, H.
Qed.

Lemma lookup_all_Done (d : dict V) (names : list string) (vs : list V) :
  lookup_all d names = Done vs ->
  Forall2 (fun n v => getitem d n = Done v) names vs.
Proof.
  revert vs. induction names as [|n names IH]; cbn [lookup_all]; intros vs H.
  - injection H as <-. constructor.
  - destruct (getitem d n) as [v|e] eqn:Hn; [|discriminate].
    destruct (lookup_all d names) as [vs'|e]; [|discriminate].
    injection H as <-. constructor; [exact Hn | now apply IH].
Qed.

Lemma lookup_all_total (d : dict V) (names : list string) :
  (forall n, In n names -> contains d n = true) ->
  exists vs, lookup_all d names = Done vs.
Proof.
  induction names as [|n names IH]; intro H; cbn [lookup_all]; [eauto|].
  pose proof (getitem_contains d n) as Hn.
  rewrite (H n (or_introl eq_refl)) in Hn. destruct Hn as [v ->].
  destruct IH as [vs ->]; [|eauto].
  intros m Hm. apply H. now right.
Qed.

End Dicts.

Section InlineArguments.

Import Public Resolution.

Variable Var : Type.
Variable Initializer : Type.
Variable to_array : Initializer -> ValueProp.ndarray.
Variable constant : ValueProp.ndarray -> Var.

#[local, warnings="-notation-for-abbreviation"] Notation default_of := (default_of to_array constant) (only parsing).
#[local, warnings="-notation-for-abbreviation"] Notation fill_defaults := (fill_defaults to_array constant) (only parsing).
#[local, warnings="-notation-for-abbreviation"] Notation inline_inner := (inline_inner to_array constant) (only parsing).
#[local, warnings="-notation-for-abbreviation"] Notation resolve := (resolve to_array constant) (only parsing).

Lemma positional_In (names : list string) (args : list Var) (n : string) (a : Var) :
  positional names args n = Some a -> In n names.
Proof.
  revert args. induction names as [|k names IH]; intros [|x args] H;
    cbn [positional] in H; try discriminate.
  destruct (String.eqb n k) eqn:E.
  - apply String.eqb_eq in E. now left.
  - right. eapply IH, H.
Qed.

(** The loop over the positional arguments raises [TypeError] only. *)
Lemma bind_positional_error names (args : list Var) kw e :
  bind_positional names args kw = Fail e -> e = TypeError.
Proof.
  revert args kw. induction names as [|n names IH]; intros [|a args] kw H;
    cbn [bind_positional] in H; try discriminate.
  destruct (contains kw n); [now injection H as <- | eapply IH, H].
Qed.

(** A name the dict holds already stops the loop when its turn comes. *)
Lemma bind_positional_clash names (args : list Var) kw n :
  contains kw n = true -> is_some (positional names args n) = true ->
  bind_positional names args kw = Fail TypeError.
Proof.
  revert args kw. induction names as [|k names IH]; intros [|a args] kw Hc Hp;
    cbn [positional] in Hp; try discriminate. cbn [bind_positional].
  destruct (contains kw k) eqn:Hk; [reflexivity|].
  destruct (String.eqb n k) eqn:E.
  - apply String.eqb_eq in E. congruence.
  - apply IH; [|exact Hp]. rewrite contains_setitem, Hc. apply orb_true_r.
Qed.

(** What the dict holds after the loop. *)
Lemma bind_positional_Done names (args : list Var) kw kw1 :
  bind_positional names args kw = Done kw1 ->
  forall m,
    contains kw1 m = is_some (positional names args m) || contains kw m /\
    getitem kw1 m = match positional names args m with
                    | Some a => Done a
                    | None => getitem kw m
                    end.
Proof.
  revert args kw. induction names as [|n names IH]; intros [|a args] kw H m;
    cbn [bind_positional positional] in *;
    try (injection H as <-; split; reflexivity).
  destruct (contains kw n) eqn:Hn; [discriminate|].
  destruct (IH _ _ H m) as [Hc Hg].
  rewrite contains_setitem in Hc. rewrite getitem_setitem in Hg.
  destruct (String.eqb m n) eqn:E.
  - apply String.eqb_eq in E. subst m.
    destruct (positional names args n) as [a'|] eqn:Hp.
    + (* the name comes again: the loop would have stopped *)
      rewrite (bind_positional_clash names args (setitem kw n a) n) in H.
      * discriminate.
      * rewrite contains_setitem, String.eqb_refl. reflexivity.
      * now rewrite Hp.
    + split; [exact Hc | exact Hg].
  - split; [exact Hc | exact Hg].
Qed.

(** The loop succeeds when the names it pairs are distinct and new. *)
Lemma bind_positional_total names (args : list Var) kw :
  NoDup (firstn (List.length args) names) ->
  (forall n, is_some (positional names args n) = true -> contains kw n = false) ->
  exists kw1, bind_positional names args kw = Done kw1.
Proof.
  revert args kw. induction names as [|n names IH]; intros [|a args] kw Hnd Hnew;
    cbn [bind_positional]; eauto.
  cbn [List.length firstn] in Hnd. inversion Hnd as [|? ? Hnotin Hnd']; subst.
  rewrite (Hnew n) by (cbn [positional]; now rewrite String.eqb_refl).
  apply IH; [exact Hnd'|].
  intros m Hm. rewrite contains_setitem.
  destruct (String.eqb m n) eqn:E.
  - apply String.eqb_eq in E. subst m. exfalso. apply Hnotin.
    clear - Hm. revert args Hm. induction names as [|k names IH]; intros [|x args] Hm;
      cbn [positional] in Hm; try discriminate. cbn [List.length firstn].
    destruct (String.eqb n k) eqn:E; [apply String.eqb_eq in E; now left|].
    right. now apply IH.
  - cbn [orb]. apply Hnew. cbn [positional]. now rewrite E.
Qed.

Lemma bind_positional_surplus names (args extra : list Var) kw :
  (List.length names <= List.length args)%nat ->
  bind_positional names (args ++ extra) kw = bind_positional names args kw.
Proof.
  revert args kw. induction names as [|n names IH]; intros [|a args] kw H;
    cbn [List.length] in H; try lia.
  - now destruct extra.
  - reflexivity.
  - cbn [app bind_positional]. destruct (contains kw n); [reflexivity|].
    apply IH. lia.
Qed.

(** What the dict holds after the loop over the missing names. *)
Lemma fill_defaults_Done defaults missing (kw kw2 : dict Var) :
  fill_defaults defaults missing kw = Done kw2 ->
  forall m,
    contains kw2 m = existsb (String.eqb m) missing || contains kw m /\
    getitem kw2 m = if existsb (String.eqb m) missing
                    then match getitem defaults m with
                         | Done i => Done (default_of i)
                         | Fail e => Fail e
                         end
                    else getitem kw m.
Proof.
  revert kw. induction missing as [|n missing IH]; intros kw H m;
    cbn [Public.fill_defaults existsb] in *.
  - injection H as <-. split; reflexivity.
  - destruct (getitem defaults n) as [i|e] eqn:Hn; [|discriminate].
    destruct (IH _ H m) as [Hc Hg].
    rewrite contains_setitem in Hc. rewrite getitem_setitem in Hg.
    split.
    + rewrite Hc. now destruct (String.eqb m n), (existsb (String.eqb m) missing).
    + rewrite Hg. destruct (String.eqb m n) eqn:E; cbn [orb]; [|reflexivity].
      apply String.eqb_eq in E. subst m. rewrite Hn.
      now destruct (existsb (String.eqb n) missing).
Qed.

Lemma fill_defaults_total (defaults : dict Initializer) missing (kw : dict Var) :
  subset missing (keys defaults) = true ->
  exists kw2, fill_defaults defaults missing kw = Done kw2.
Proof.
  revert kw. induction missing as [|n missing IH]; intros kw H;
    cbn [Public.fill_defaults]; [eauto|].
  unfold subset in H. cbn [forallb] in H. apply andb_true_iff in H as [Hn Hrest].
  rewrite contains_keys in Hn.
  pose proof (getitem_contains defaults n) as Hg. rewrite Hn in Hg.
  destruct Hg as [i ->]. now apply IH.
Qed.

Lemma missing_spec (names : list string) (kw : dict Var) (n : string) :
  existsb (String.eqb n)
    (nodup string_dec (filter (fun m => negb (contains kw m)) names))
  = existsb (String.eqb n) names && negb (contains kw n).
Proof.
  apply Bool.eq_iff_eq_true.
  rewrite andb_true_iff, !existsb_eqb_In, nodup_In, filter_In. tauto.
Qed.

Lemma Forall2_In_impl {A B : Type} (P Q : A -> B -> Prop) (l : list A) (l' : list B) :
  (forall x y, In x l -> P x y -> Q x y) -> Forall2 P l l' -> Forall2 Q l l'.
Proof.
  intros H HF. induction HF as [|x y l l' Hxy _ IH]; constructor.
  - apply H; [now left | exact Hxy].
  - apply IH. intros a b Ha. apply H. now right.
Qed.

Lemma Forall2_In_l {A B : Type} (P : A -> B -> Prop) (l : list A) (l' : list B) x :
  Forall2 P l l' -> In x l -> exists y, P x y.
Proof.
  intros HF. induction HF as [|a b l l' Hab _ IH]; intros [].
  - subst. eauto.
  - now apply IH.
Qed.

(** The steps a call that returned went through. *)
Lemma inline_inner_Done_inv model (args : list Var) kwargs inputs :
  inline_inner model args kwargs = Done inputs ->
  exists kw1 kw2,
    bind_positional (graph_input model) args kwargs = Done kw1 /\
    fill_defaults (in_defaults model)
      (nodup string_dec
         (filter (fun n => negb (contains kw1 n)) (graph_input model))) kw1
    = Done kw2 /\
    set_eqb (keys kw2) (graph_input model) = true /\
    lookup_all kw2 (graph_input model) = Done inputs.
Proof.
  unfold Public.inline_inner. intro H.
  destruct (bind_positional _ args kwargs) as [kw1|e]; [|discriminate].
  destruct (negb (subset _ _)); [discriminate|].
  destruct (Public.fill_defaults _ _ _ _ kw1) as [kw2|e] eqn:Hf; [|discriminate].
  destruct (set_eqb (keys kw2) (graph_input model)) eqn:Hs; [|discriminate].
  exists kw1, kw2. auto.
Qed.

Lemma resolved_getitem model (args : list Var) kwargs kw1 kw2 n :
  bind_positional (graph_input model) args kwargs = Done kw1 ->
  fill_defaults (in_defaults model)
    (nodup string_dec
       (filter (fun n => negb (contains kw1 n)) (graph_input model))) kw1
  = Done kw2 ->
  In n (graph_input model) ->
  getitem kw2 n = resolve model args kwargs n.
Proof.
  intros Hb Hf Hn.
  destruct (bind_positional_Done _ _ _ _ Hb n) as [Hc1 Hg1].
  destruct (fill_defaults_Done _ _ _ _ Hf n) as [_ Hg2].
  rewrite missing_spec in Hg2.
  rewrite (proj2 (existsb_eqb_In n (graph_input model)) Hn) in Hg2.
  cbn [andb] in Hg2. rewrite Hg2, Hc1, Hg1. unfold Resolution.resolve.
  destruct (positional (graph_input model) args n) as [a|]; cbn [is_some orb negb];
    [reflexivity|].
  now destruct (contains kwargs n).
Qed.

Lemma inline_inner_resolved model (args : list Var) kwargs inputs :
  inline_inner model args kwargs = Done inputs ->
  Forall2 (fun n v => resolve model args kwargs n = Done v)
    (graph_input model) inputs.
Proof.
  intro H. apply inline_inner_Done_inv in H as [kw1 [kw2 [Hb [Hf [_ Hl]]]]].
  apply lookup_all_Done in Hl.
  eapply Forall2_In_impl; [|exact Hl].
  intros n v Hn Hg. now rewrite <- (resolved_getitem model args kwargs kw1 kw2 n).
Qed.

Lemma inline_inner_error model (args : list Var) kwargs e :
  inline_inner model args kwargs = Fail e -> e = TypeError.
Proof.
  unfold Public.inline_inner. intro H.
  destruct (bind_positional _ args kwargs) as [kw1|e1] eqn:Hb.
  - destruct (subset _ (keys (in_defaults model))) eqn:Hsub; cbn [negb] in H;
      [|now injection H as <-].
    destruct (fill_defaults_total (in_defaults model) _ kw1 Hsub) as [kw2 Hf].
    rewrite Hf in H.
    destruct (set_eqb (keys kw2) (graph_input model)) eqn:Hs; cbn [negb] in H;
      [|now injection H as <-].
    unfold set_eqb in Hs. apply andb_true_iff in Hs as [_ Hs].
    destruct (lookup_all_total kw2 (graph_input model)) as [vs Hvs].
    + intros n Hn. rewrite <- contains_keys. apply existsb_eqb_In.
      revert n Hn. now apply subset_spec.
    + rewrite Hvs in H. discriminate.
  - injection H as <-. eapply bind_positional_error, Hb.
Qed.

(** X17.  When the callback of [inline] gets as far as the node, the inputs
    it hands over are, in the order of the model inputs, the resolved value
    of each: the positional argument at its place, else the keyword argument
    of its name, else the constant of its initializer. *)
Theorem inline_inner_inputs model (args : list Var) kwargs inputs :
  inline_inner model args kwargs = Done inputs ->
  List.length inputs = List.length (graph_input model) /\
  Forall2 (fun n v => resolve model args kwargs n = Done v)
    (graph_input model) inputs.
Proof.
  intro H. pose proof (inline_inner_resolved model args kwargs inputs H) as HF.
  split; [|exact HF].
  symmetry. exact (Forall2_length HF).
Qed.

(** X18.  The callback never fails with a [KeyError]: its lookups are
    guarded.  It raises [TypeError] when an input is given both by position
    and by keyword, when a keyword names no input of the model, and when an
    input of the model is given neither an argument nor an initializer. *)
Theorem inline_inner_errors model (args : list Var) kwargs :
  inline_inner model args kwargs <> Fail KeyError /\
  (forall n, is_some (positional (graph_input model) args n) = true ->
             contains kwargs n = true ->
             inline_inner model args kwargs = Fail TypeError) /\
  (forall k, contains kwargs k = true -> ~ In k (graph_input model) ->
             inline_inner model args kwargs = Fail TypeError) /\
  (forall n e, In n (graph_input model) ->
               resolve model args kwargs n = Fail e ->
               inline_inner model args kwargs = Fail TypeError).
Proof.
  assert (Hfail : forall P : Prop,
             (forall inputs, inline_inner model args kwargs = Done inputs -> P) ->
             (inline_inner model args kwargs = Fail TypeError -> P) -> P).
  { intros P Hdone Herr.
    destruct (inline_inner model args kwargs) as [inputs|e] eqn:H.
    - now apply (Hdone inputs).
    - apply Herr. now rewrite (inline_inner_error model args kwargs e H). }
  split; [|split; [|split]].
  - intro H. apply inline_inner_error in H. discriminate.
  - intros n Hp Hc. apply Hfail; [|auto]. intros inputs H. exfalso.
    apply inline_inner_Done_inv in H as [kw1 [kw2 [Hb _]]].
    rewrite (bind_positional_clash _ args kwargs n Hc Hp) in Hb. discriminate.
  - intros k Hc Hk. apply Hfail; [|auto]. intros inputs H. exfalso.
    apply inline_inner_Done_inv in H as [kw1 [kw2 [Hb [Hf [Hs _]]]]].
    unfold set_eqb in Hs. apply andb_true_iff in Hs as [Hs _].
    apply Hk. apply (proj1 (subset_spec _ _) Hs).
    apply existsb_eqb_In. rewrite contains_keys.
    rewrite (proj1 (fill_defaults_Done _ _ _ _ Hf k)).
    rewrite (proj1 (bind_positional_Done _ _ _ _ Hb k)), Hc.
    now rewrite !orb_true_r.
  - intros n e Hn Hr. apply Hfail; [|auto]. intros inputs H. exfalso.
    apply inline_inner_resolved in H.
    destruct (Forall2_In_l _ _ _ n H Hn) as [v Hv]. congruence.
Qed.

(** X19.  Positional arguments beyond the inputs of the model are dropped
    without an error. *)
Theorem inline_inner_surplus model (args extra : list Var) kwargs :
  (List.length (graph_input model) <= List.length args)%nat ->
  inline_inner model (args ++ extra) kwargs = inline_inner model args kwargs.
Proof.
  intro H. unfold Public.inline_inner.
  now rewrite (bind_positional_surplus (graph_input model) args extra kwargs H).
Qed.

(** X20.  The callback reaches the node when the inputs paired with
    positional arguments are distinct and not given by keyword as well,
    every keyword names an input of the model, and every input resolves to a
    value. *)
Theorem inline_inner_succeeds model (args : list Var) kwargs :
  NoDup (firstn (List.length args) (graph_input model)) ->
  (forall n, is_some (positional (graph_input model) args n) = true ->
             contains kwargs n = false) ->
  (forall k, contains kwargs k = true -> In k (graph_input model)) ->
  (forall n, In n (graph_input model) ->
             exists v, resolve model args kwargs n = Done v) ->
  exists inputs, inline_inner model args kwargs = Done inputs.
Proof.
  intros Hnd Hnew Hkw Hres.
  destruct (bind_positional_total (graph_input model) args kwargs Hnd Hnew)
    as [kw1 Hb].
  pose proof (bind_positional_Done _ _ _ _ Hb) as Hkw1.
  unfold Public.inline_inner. rewrite Hb.
  set (missing := nodup string_dec
                    (filter (fun n => negb (contains kw1 n)) (graph_input model))).
  assert (Hmiss : forall n, In n missing <->
                            In n (graph_input model) /\ contains kw1 n = false).
  { intro n. unfold missing. rewrite nodup_In, filter_In, negb_true_iff. tauto. }
  assert (Hsub : subset missing (keys (in_defaults model)) = true).
  { apply subset_spec. intros n Hn. apply Hmiss in Hn as [Hin Hc].
    apply existsb_eqb_In. rewrite contains_keys.
    destruct (Hres n Hin) as [v Hv]. unfold Resolution.resolve in Hv.
    rewrite (proj1 (Hkw1 n)) in Hc. apply orb_false_iff in Hc as [Hp Hc].
    destruct (positional (graph_input model) args n); [discriminate|].
    rewrite Hc in Hv.
    pose proof (getitem_contains (in_defaults model) n) as Hg.
    destruct (contains (in_defaults model) n); [reflexivity|].
    rewrite Hg in Hv. discriminate. }
  rewrite Hsub. cbn [negb].
  destruct (fill_defaults_total (in_defaults model) missing kw1 Hsub) as [kw2 Hf].
  rewrite Hf.
  pose proof (fill_defaults_Done _ _ _ _ Hf) as Hkw2.
  assert (Hall : forall n, In n (graph_input model) -> contains kw2 n = true).
  { intros n Hn. rewrite (proj1 (Hkw2 n)).
    destruct (contains kw1 n) eqn:Hc; [apply orb_true_r|].
    rewrite (proj2 (existsb_eqb_In n missing)); [reflexivity|].
    apply Hmiss. auto. }
  assert (Hs : set_eqb (keys kw2) (graph_input model) = true).
  { unfold set_eqb. apply andb_true_iff. split; apply subset_spec; intros n Hn.
    - apply existsb_eqb_In in Hn. rewrite contains_keys, (proj1 (Hkw2 n)) in Hn.
      apply orb_true_iff in Hn as [Hn | Hn].
      + apply existsb_eqb_In, Hmiss in Hn. tauto.
      + rewrite (proj1 (Hkw1 n)) in Hn. apply orb_true_iff in Hn as [Hn | Hn].
        * destruct (positional (graph_input model) args n) as [a|] eqn:Hp;
            [|discriminate].
          eapply positional_In, Hp.
        * now apply Hkw.
    - apply existsb_eqb_In. rewrite contains_keys. now apply Hall. }
  rewrite Hs. cbn [negb].
  exact (lookup_all_total kw2 (graph_input model) Hall).
Qed.

End InlineArguments.

Section InlineExamples.

Import Public Resolution.

(** A model with the inputs "x", "y" and "w", of which "w" has an
    initializer; variables are numbered, the constant of the initializer
    [i] being the variable [100 + i]. *)
Let example_to_array (i : nat) : ValueProp.ndarray :=
  ValueProp.mk_ndarray (ValueProp.dt int64) (repeat 1%N i) [].
Let example_constant (a : ValueProp.ndarray) : nat :=
  (100 + List.length (ValueProp.shape a))%nat.
Let example_model : ModelProto nat :=
  mkModelProto ["x"; "y"; "w"] [("w", 7%nat)] ["r"].

Lemma inline_inner_inputs_witness :
  List.length [1; 2; 107]%nat = List.length (graph_input example_model) /\
  Forall2 (fun n v =>
             resolve example_to_array example_constant example_model
               [1%nat] [("y", 2%nat)] n = Done v)
    (graph_input example_model) [1; 2; 107]%nat.
Proof.
  apply (inline_inner_inputs nat nat example_to_array example_constant
           example_model [1%nat] [("y", 2%nat)] [1; 2; 107]%nat).
  reflexivity.
Defined.

Lemma inline_inner_errors_witness :
  inline_inner example_to_array example_constant example_model
    [1%nat] [("x", 5%nat); ("y", 2%nat)] = Fail TypeError /\
  inline_inner example_to_array example_constant example_model
    [1%nat] [("y", 2%nat); ("z", 3%nat)] = Fail TypeError /\
  inline_inner example_to_array example_constant example_model
    [] [("y", 2%nat)] = Fail TypeError.
Proof.
  split; [|split].
  - apply (proj1 (proj2 (inline_inner_errors nat nat example_to_array
                           example_constant example_model
                           [1%nat] [("x", 5%nat); ("y", 2%nat)])) "x");
      reflexivity.
  - apply (proj1 (proj2 (proj2 (inline_inner_errors nat nat example_to_array
                                  example_constant example_model
                                  [1%nat] [("y", 2%nat); ("z", 3%nat)]))) "z").
    + reflexivity.
    + intros [H | [H | [H | []]]]; discriminate H.
  - apply (proj2 (proj2 (proj2 (inline_inner_errors nat nat example_to_array
                                  example_constant example_model
                                  [] [("y", 2%nat)]))) "x" KeyError).
    + now left.
    + reflexivity.
Defined.

Lemma inline_inner_surplus_witness :
  inline_inner example_to_array example_constant example_model
    ([1; 2; 3]%nat ++ [4; 5]%nat)%list []
  = inline_inner example_to_array example_constant example_model
      [1; 2; 3]%nat [].
Proof.
  apply (inline_inner_surplus nat nat example_to_array example_constant
           example_model [1; 2; 3]%nat [4; 5]%nat []).
  simpl. lia.
Defined.

Lemma inline_inner_succeeds_witness :
  exists inputs,
    inline_inner example_to_array example_constant example_model
      [1%nat] [("y", 2%nat)] = Done inputs.
Proof.
  apply (inline_inner_succeeds nat nat example_to_array example_constant
           example_model [1%nat] [("y", 2%nat)]).
  - simpl. constructor; [intros [] | constructor].
  - intros n H. cbn in *.
    destruct (String.eqb n "x") eqn:E; [|discriminate].
    apply String.eqb_eq in E. subst. reflexivity.
  - intros k H. cbn in *.
    destruct (String.eqb k "y") eqn:E; [|discriminate].
    apply String.eqb_eq in E. subst. right. now left.
  - intros n [<- | [<- | [<- | []]]]; eexists; reflexivity.
Defined.

(** The call of the witnesses, evaluated. *)
Example inline_inner_example :
  inline_inner example_to_array example_constant example_model
    [1%nat] [("y", 2%nat)] = Done [1; 2; 107]%nat.
Proof. reflexivity. Qed.

End InlineExamples.
